(** * jcch: the immutable [Vector2d] value type and the schedule record cache

    A shallow embedding of two of the repository's teaching examples:

    - [classes/vector2d_v3.py]: class [Vector2d], a pair of Python floats
      behind two read-only properties, with its protocol methods
      ([__iter__], [__eq__], [__hash__], [__abs__], [__bool__],
      [__bytes__], [frombytes], [__repr__], [__format__]);
    - [23-dyn-attr-prop/oscon]: the record loader exercised by
      [test_schedule_v2.py] ([Record.fetch], the [Event] variant, its
      display form and its [venue] property).

    Python floats are IEEE-754 binary64 numbers.  They are modelled by the
    standard library's [spec_float] with precision 53 and maximal exponent
    1024, by value: a float is its number, not the heap cell holding it.
    The one place where CPython looks at the cell is the comparison of
    sequences, which takes an item to equal itself before it asks [==];
    this only shows for a NaN held by both sequences.  [Vector2d.__eq__]
    compares by value, which is the comparison of any two vectors that
    share no float object; [Vector2dHeap] keeps the addresses of the
    components and compares as CPython does. *)

From Stdlib Require Import ZArith Lia Bool List Ascii String.
From Stdlib Require Strings.Byte.
From Stdlib Require Import Floats.SpecFloat.
From stdpp Require Import gmap strings list fin_maps pretty.

Open Scope Z_scope.

(** ** Exceptions and results *)

Inductive exn : Type :=
| TypeError
| ValueError
| AttributeError
| OverflowError
| NameError
| SyntaxError
| KeyError.

Inductive Result (A : Type) : Type :=
| Ok (a : A)
| Raise (e : exn).
Arguments Ok {A} a.
Arguments Raise {A} e.

(** [Result] is an error monad; [x ← r; k] is stdpp's bind notation. *)
#[global] Instance Result_ret : MRet Result := fun A a => Ok a.
#[global] Instance Result_bind : MBind Result := fun A B k r =>
  match r with
  | Ok a => k a
  | Raise e => Raise e
  end.

(** ** Python floats: IEEE-754 binary64 *)

Module Float64.

Definition prec : Z := 53.
Definition emax : Z := 1024.

Definition float : Type := spec_float.

(** A [spec_float] denotes a double when its mantissa is canonical. *)
Definition valid (f : float) : bool := valid_binary prec emax f.

Definition is_nan (f : float) : bool :=
match f with S754_nan => true | _ => false end.

Definition is_inf (f : float) : bool :=
match f with S754_infinity _ => true | _ => false end.

Definition is_finite (f : float) : bool :=
match f with S754_zero _ | S754_finite _ _ _ => true | _ => false end.

Definition is_zero (f : float) : bool :=
match f with S754_zero _ => true | _ => false end.

(** [a == b] on floats. *)
Definition eqb (a b : float) : bool := SFeqb a b.

(** [float(n)] for an [int]: the nearest double, ties to even;
  [None] when the rounded value overflows (Python raises
  [OverflowError]). *)
Definition of_int (n : Z) : option float :=
match binary_normalize prec emax n 0 false with
| S754_infinity _ => None
| f => Some f
end.

(** An integer that is known to fit, as in a literal of the doctests. *)
Definition lit (n : Z) : float := binary_normalize prec emax n 0 false.

(** [bool(f)]: every float but the two zeros is true, NaN included. *)
Definition truth (f : float) : bool := negb (is_zero f).

(** *** [math.hypot] *)

(** [f] as [m * 2 ^ e] with a natural mantissa, sign dropped. *)
Definition mag (f : float) : Z * Z :=
match f with
| S754_finite _ m e => (Zpos m, e)
| _ => (0, 0)
end.

(** The sum of the two squares, exactly, as [m * 2 ^ e]. *)
Definition sum_squares (x y : float) : Z * Z :=
let '(mx, ex) := mag x in
let '(my, ey) := mag y in
let e := Z.min ex ey in
((mx * 2 ^ (ex - e)) ^ 2 + (my * 2 ^ (ey - e)) ^ 2, 2 * e).

(** The Euclidean norm, correctly rounded (the operation IEEE 754
  recommends and the C library approximates): the sum of the two
  squares is formed exactly over the integers and its square root is
  rounded once, to nearest even.  The special cases are those of C99,
  Annex F: an infinite argument gives [+inf] even when the other one
  is NaN.  A result too large for a double is [+inf], as in
  [math.hypot] since Python 3.8.  The library's result can be one
  unit in the last place away from this one; the two agree on the
  special cases, on whether the result is zero, and wherever the norm
  is itself a double, as for [hypot(3.0, 4.0)]. *)
Definition hypot (x y : float) : float :=
if is_inf x || is_inf y then S754_infinity false
else if is_nan x || is_nan y then S754_nan
else
  let '(m, e) := sum_squares x y in
  match m with
  | Zpos _ =>
      let '(mz, ez, lz) := SFsqrt_core_binary prec emax m e in
      binary_round_aux prec emax false mz ez lz
  | _ => S754_zero false
  end.

(** *** [hash] of a float

  CPython reduces the number modulo the Mersenne prime
  [2 ^ 61 - 1] (64-bit builds): [m * 2 ^ e] hashes to
  [m * 2 ^ (e mod 61)] modulo that prime, negated for a negative
  number, and [-1], reserved for errors, is replaced by [-2].  The
  infinities hash to [314159] and [-314159]; NaN hashes to [0]
  (releases from 3.10 on use the address of the object instead). *)
Definition hash_modulus : Z := 2 ^ 61 - 1.
Definition hash_bits : Z := 61.
Definition hash_inf : Z := 314159.
Definition hash_nan : Z := 0.

Definition hash (f : float) : Z :=
match f with
| S754_zero _ => 0
| S754_infinity s => if s then - hash_inf else hash_inf
| S754_nan => hash_nan
| S754_finite s m e =>
    let h := (Zpos m * 2 ^ (e mod hash_bits)) mod hash_modulus in
    let x := if s then - h else h in
    if x =? -1 then -2 else x
end.

(** *** The interchange format

  A double as the 64-bit pattern [sign | exponent(11) | fraction(52)].
  [spec_float] has one NaN; it is written as the quiet NaN with an
  empty payload, and every NaN pattern reads back as it. *)
Definition sign_bit (s : bool) : Z := if s then 2 ^ 63 else 0.

Definition bits_of_float (f : float) : Z :=
match f with
| S754_zero s => sign_bit s
| S754_infinity s => sign_bit s + 2047 * 2 ^ 52
| S754_nan => 2047 * 2 ^ 52 + 2 ^ 51
| S754_finite s m e =>
    if 2 ^ 52 <=? Zpos m
    then sign_bit s + (e + 1075) * 2 ^ 52 + (Zpos m - 2 ^ 52)
    else sign_bit s + Zpos m
end.

Definition float_of_bits (b : Z) : float :=
let s := Z.testbit b 63 in
let biased := Z.land (Z.shiftr b 52) (Z.ones 11) in
let frac := Z.land b (Z.ones 52) in
if biased =? 0 then
  match frac with
  | Zpos m => S754_finite s m (-1074)
  | _ => S754_zero s
  end
else if biased =? 2047 then
  if frac =? 0 then S754_infinity s else S754_nan
else
  match frac + 2 ^ 52 with
  | Zpos m => S754_finite s m (biased - 1075)
  | _ => S754_nan
  end.

(** Byte order of the process ([sys.byteorder]). *)
Inductive byteorder : Type := Little | Big.

Definition byte_of_Z (z : Z) : Byte.byte :=
match Byte.of_N (Z.to_N (z mod 256)) with
| Some b => b
| None => Byte.x00
end.

Definition Z_of_byte (b : Byte.byte) : Z := Z.of_N (Byte.to_N b).

(** [n] bytes of [z], least significant first. *)
Fixpoint le_bytes (n : nat) (z : Z) : list Byte.byte :=
match n with
| O => []
| S n' => byte_of_Z z :: le_bytes n' (Z.shiftr z 8)
end.

Fixpoint le_value (l : list Byte.byte) : Z :=
match l with
| [] => 0
| b :: l' => Z_of_byte b + Z.shiftl (le_value l') 8
end.

(** The eight bytes of one array item of type code ['d']. *)
Definition pack (o : byteorder) (f : float) : list Byte.byte :=
let l := le_bytes 8 (bits_of_float f) in
match o with Little => l | Big => rev l end.

Definition unpack (o : byteorder) (l : list Byte.byte) : float :=
float_of_bits (le_value (match o with Little => l | Big => rev l end)).

End Float64.

(** ** Python values *)

(** The numeric arguments the constructor is called with. *)
Inductive number : Type :=
| NInt (n : Z)
| NBool (b : bool)
| NFloat (f : Float64.float).

(** The values found in attribute dictionaries, in tuples and in JSON
    objects. *)
Inductive pyval : Type :=
| PyNone
| PyNum (n : number)
| PyStr (s : string).

(** The builtin [float(x)] on a number: a float is returned as it is, an
    [int] is rounded, and an [int] too large for a double raises
    [OverflowError]. *)
Definition float_ (x : number) : Result Float64.float :=
  match x with
  | NFloat f => Ok f
  | NBool b => Ok (Float64.lit (if b then 1 else 0))
  | NInt n =>
      match Float64.of_int n with
      | Some f => Ok f
      | None => Raise OverflowError
      end
  end.

(** [f == n] for a float and an [int] compares the exact values. *)
Definition float_eq_int (f : Float64.float) (n : Z) : bool :=
  match f with
  | S754_zero _ => n =? 0
  | S754_finite s m e =>
      let v := if s then Zneg m else Zpos m in
      if 0 <=? e then n =? v * 2 ^ e else n * 2 ^ (- e) =? v
  | _ => false
  end.

Definition int_of (b : bool) : Z := if b then 1 else 0.

Definition num_eqb (a b : number) : bool :=
  match a, b with
  | NFloat f, NFloat g => Float64.eqb f g
  | NFloat f, NInt n | NInt n, NFloat f => float_eq_int f n
  | NFloat f, NBool c | NBool c, NFloat f => float_eq_int f (int_of c)
  | NInt n, NInt k => n =? k
  | NInt n, NBool c | NBool c, NInt n => n =? int_of c
  | NBool c, NBool d => Bool.eqb c d
  end.

(** [a == b] on values. *)
Definition py_eqb (a b : pyval) : bool :=
  match a, b with
  | PyNone, PyNone => true
  | PyNum n, PyNum k => num_eqb n k
  | PyStr s, PyStr u => String.eqb s u
  | _, _ => false
  end.

(** [==] on tuples: same length and equal items. *)
Fixpoint tuple_eqb (l k : list pyval) : bool :=
  match l, k with
  | [], [] => true
  | a :: l', b :: k' => py_eqb a b && tuple_eqb l' k'
  | _, _ => false
  end.

(** ** The attribute layer of class [Vector2d]

    An instance is its [__dict__].  Inside the class body the private
    names [__x] and [__y] are mangled to [_Vector2d__x] and
    [_Vector2d__y]. *)

Module Vector2dObject.

Abbreviation instance := (gmap string pyval).

Definition mangle (name : string) : string := "_Vector2d" +:+ name.

(** Reading an attribute that only the instance dictionary can hold. *)
Definition instance_attr (self : instance) (name : string) : Result pyval :=
match self !! name with
| Some v => Ok v
| None => Raise AttributeError
end.

(** The two getters decorated with [@property]. *)
Definition x (self : instance) : Result pyval :=
instance_attr self (mangle "__x").

Definition y (self : instance) : Result pyval :=
instance_attr self (mangle "__y").

(** What a name is bound to in the class namespace: a [property] with
  its getter and its optional setter, or anything else (a function or
  the class attribute [typecode]). *)
Inductive class_attr : Type :=
| Property (fget : instance -> Result pyval)
         (fset : option (instance -> pyval -> Result instance))
| GetSet (fset : option (instance -> pyval -> Result instance))
| Plain.

(** The data descriptors an instance of any class without [__slots__]
  has besides those of the class body: [__class__], from [object],
  whose setter takes a class, [__dict__], whose setter takes a
  dictionary, and [__weakref__], which has no setter.  No [pyval] is a
  class or a dictionary. *)
Definition set_class (self : instance) (value : pyval) : Result instance :=
Raise TypeError.

Definition set_dict (self : instance) (value : pyval) : Result instance :=
Raise TypeError.

Definition plain_names : list string :=
["typecode"; "__init__"; "__iter__"; "__repr__"; "__str__"; "__bytes__";
 "__eq__"; "__hash__"; "__abs__"; "__bool__"; "angle"; "__format__";
 "frombytes"].

Definition class_lookup (name : string) : option class_attr :=
if String.eqb name "x" then Some (Property x None)
else if String.eqb name "y" then Some (Property y None)
else if existsb (String.eqb name) plain_names then Some Plain
else if String.eqb name "__dict__" then Some (GetSet (Some set_dict))
else if String.eqb name "__weakref__" then Some (GetSet None)
else if String.eqb name "__class__" then Some (GetSet (Some set_class))
else None.

(** [self.name = value], that is, [object.__setattr__]: a data
  descriptor found on the class or on [object] takes the assignment,
  and one without a setter refuses it; any other name is stored in
  the instance dictionary. *)
Definition setattr (self : instance) (name : string) (value : pyval)
: Result instance :=
match class_lookup name with
| Some (Property _ None) | Some (GetSet None) => Raise AttributeError
| Some (Property _ (Some fset)) | Some (GetSet (Some fset)) => fset self value
| _ => Ok (<[name := value]> self)
end.

(** The statement [self.name = value] as a step on the instance: the
  instance afterwards and the exception raised, if any. *)
Definition assign (self : instance) (name : string) (value : pyval)
: instance * option exn :=
match setattr self name value with
| Ok self' => (self', None)
| Raise e => (self, Some e)
end.

Definition __init__ (a b : number) : Result instance :=
fx ← float_ a;
self ← setattr ∅ (mangle "__x") (PyNum (NFloat fx));
fy ← float_ b;
setattr self (mangle "__y") (PyNum (NFloat fy)).

End Vector2dObject.

(** ** The value layer of class [Vector2d]

    The two properties are the only way the methods read an instance, so
    a vector is the pair of floats they return. *)

Module Vector2d.
Import Float64.

Record t : Type := mk { x : float; y : float }.

Definition as_float (r : Result pyval) : Result float :=
v ← r;
match v with
| PyNum (NFloat f) => Ok f
| _ => Raise TypeError
end.

(** The expression [Vector2d(a, b)]. *)
Definition new (a b : number) : Result t :=
self ← Vector2dObject.__init__ a b;
fx ← as_float (Vector2dObject.x self);
fy ← as_float (Vector2dObject.y self);
Ok (mk fx fy).

Definition typecode : string := "d".

(** The size of an array item of type code ['d'], a C double. *)
Definition itemsize : nat := 8.

Definition __iter__ (self : t) : list pyval :=
[PyNum (NFloat (x self)); PyNum (NFloat (y self))].

(** The second operand of [==]: any object. *)
Inductive pyobj : Type :=
| Obj (v : pyval)
| Tuple (l : list pyval)
| PyList (l : list pyval)
| Vec (v : t).

Definition chars (s : string) : list pyval :=
map (fun c => PyStr (String c EmptyString)) (list_ascii_of_string s).

(** [tuple(o)]: the items of an iterable; [TypeError] otherwise. *)
Definition tuple_ (o : pyobj) : Result (list pyval) :=
match o with
| Tuple l | PyList l => Ok l
| Vec v => Ok (__iter__ v)
| Obj (PyStr s) => Ok (chars s)
| Obj _ => Raise TypeError
end.

Definition __eq__ (self : t) (other : pyobj) : Result bool :=
items ← tuple_ other;
Ok (tuple_eqb (__iter__ self) items).

Definition __hash__ (self : t) : Z :=
Z.lxor (hash (x self)) (hash (y self)).

(** The builtin [hash(v)]: the method's result, with [-1] replaced by
  [-2] (the method's results here always fit a machine word). *)
Definition hash_ (self : t) : Z :=
let h := __hash__ self in
if h =? -1 then -2 else h.

Definition __abs__ (self : t) : float := hypot (x self) (y self).

Definition __bool__ (self : t) : bool := truth (__abs__ self).

(** [bytes(array(typecode, self))]: the items, one after the other. *)
Definition __bytes__ (o : byteorder) (self : t) : list Byte.byte :=
pack o (x self) ++ pack o (y self).

Fixpoint items_of (fuel : nat) (octets : list Byte.byte) : list (list Byte.byte) :=
match fuel, octets with
| S fuel', _ :: _ =>
    take itemsize octets :: items_of fuel' (drop itemsize octets)
| _, _ => []
end.

(** [memoryview(octets).cast(typecode)]: the length must be a multiple
  of the item size. *)
Definition cast (o : byteorder) (octets : list Byte.byte) : Result (list float) :=
if (length octets mod itemsize =? 0)%nat
then Ok (map (unpack o) (items_of (length octets) octets))
else Raise TypeError.

(** The class called on the unpacked items: the constructor takes
  exactly two arguments. *)
Definition frombytes (o : byteorder) (octets : list Byte.byte) : Result t :=
memv ← cast o octets;
match memv with
| [a; b] => new (NFloat a) (NFloat b)
| _ => Raise TypeError
end.

End Vector2d.

(** ** [Vector2d] over float objects

  The comparison of two tuples asks of each pair of items whether they
  are the same object before it asks whether they are equal
  ([PyObject_RichCompareBool]).  Here the components of an instance
  are float objects of a heap, known by their addresses, so that two
  instances, or one instance twice, can hold the same object. *)

Module Vector2dHeap.
Import Float64.

(** The float object at each address. *)
Definition heap : Type := nat -> float.

(** An instance: the addresses of the objects bound to [__x] and
  [__y]. *)
Record t : Type := mk { x : nat; y : nat }.

(** The instance by value. *)
Definition contents (h : heap) (self : t) : Vector2d.t :=
Vector2d.mk (h (x self)) (h (y self)).

(** [a is b]. *)
Definition is_ (a b : nat) : bool := Nat.eqb a b.

(** Two items of the tuples compared: [a is b or a == b]. *)
Definition item_eq (h : heap) (a b : nat) : bool :=
is_ a b || eqb (h a) (h b).

(** [tuple(self) == tuple(other)] for another instance. *)
Definition __eq__ (h : heap) (self other : t) : bool :=
item_eq h (x self) (x other) && item_eq h (y self) (y other).

End Vector2dHeap.

(** ** Text of values: [repr] and [str]

    The decimal text of a float is produced by the runtime's shortest
    round-trip printer, which has no counterpart here; it is a parameter
    wherever text is built. *)

Module Text.

Definition dquote : ascii := ascii_of_nat 34.
Definition squote : ascii := "'"%char.
Definition backslash : ascii := ascii_of_nat 92.

Definition str1 (c : ascii) : string := String c EmptyString.

Fixpoint contains (c : ascii) (s : string) : bool :=
match s with
| EmptyString => false
| String d s' => Ascii.eqb c d || contains c s'
end.

Definition hex_digit (n : nat) : ascii :=
ascii_of_nat (if (n <? 10)%nat then 48 + n else 87 + n).

(** One character inside a string literal quoted with [q]. *)
Definition escape (q c : ascii) : string :=
let n := nat_of_ascii c in
if Ascii.eqb c backslash then String backslash (str1 backslash)
else if Ascii.eqb c q then String backslash (str1 q)
else if (n =? 10)%nat then String backslash "n"
else if (n =? 13)%nat then String backslash "r"
else if (n =? 9)%nat then String backslash "t"
else if (n <? 32)%nat || (n =? 127)%nat
     then String backslash
            (String "x" (String (hex_digit (n / 16)) (str1 (hex_digit (n mod 16)))))
else str1 c.

Fixpoint escape_all (q : ascii) (s : string) : string :=
match s with
| EmptyString => EmptyString
| String c s' => escape q c +:+ escape_all q s'
end.

(** [repr(s)] for a string: single quotes, unless the text has a single
  quote and no double quote.  Bytes above 127 (the encoding of
  non-ASCII text) are kept as they are. *)
Definition repr_str (s : string) : string :=
let q := if contains squote s && negb (contains dquote s)
         then dquote else squote in
String q (escape_all q s +:+ str1 q).

Section Values.
(** [repr(f)] for a float. *)
Variable float_repr : Float64.float -> string.

Definition repr (v : pyval) : string :=
match v with
| PyNone => "None"
| PyNum (NInt n) => pretty n
| PyNum (NBool b) => if b then "True" else "False"
| PyNum (NFloat f) => float_repr f
| PyStr s => repr_str s
end.

(** [str(v)]: as [repr], but a string is its own text. *)
Definition str (v : pyval) : string :=
match v with
| PyStr s => s
| _ => repr v
end.
End Values.

(** [t] occurs in [s]. *)
Definition embeds (s t : string) : Prop :=
exists pre post : string, s = pre +:+ t +:+ post.

End Text.

(** ** The schedule records

    Module [schedule_v2] ([load], [Record], [Event]) is not among the
    sources; only [test_schedule_v2.py] is.  Every definition of this
    module is modelled from section 4.1 of the specification and from
    the literal display forms the test asserts. *)

Module Schedule.

(** Modelled from the spec: the classes of [schedule_v2].  The concrete
  variant of a record is the generic [Record] or the specialised
  [Event]. *)
Inductive variant : Type := Generic | Event.

(** Modelled from the spec: a record object of [schedule_v2], its class
  and the mapping of its fields, loaded verbatim. *)
Record record : Type := mkRecord {
cls : variant;
fields : gmap string pyval
}.

(** Modelled from the spec: the identity of a record object, as its
  position in the heap. *)
Definition ref : Type := nat.

(** Modelled from the spec: the process-wide state of [schedule_v2],
  that is the preloaded dataset, the cache of constructed records, and
  the objects constructed so far. *)
Record state : Type := mkState {
dataset : gmap string (gmap string pyval);
cache : gmap string ref;
heap : list record
}.

(** Modelled from the spec: the state of [schedule_v2] once the dataset
  is loaded and before any fetch. *)
Definition init (d : gmap string (gmap string pyval)) : state :=
mkState d ∅ [].

(** Modelled from the spec: the category portion of a composite key
  [<category>.<serial>], the text before the first dot. *)
Fixpoint category (key : string) : string :=
match key with
| EmptyString => EmptyString
| String c rest =>
    if Ascii.eqb c "." then EmptyString else String c (category rest)
end.

(** Modelled from the spec: the selection of the variant in
  [Record.fetch], the specialised one for category [event] and the
  generic one otherwise. *)
Definition variant_of (cat : string) : variant :=
if String.eqb cat "event" then Event else Generic.

(** Modelled from the spec: the constructor of [Record] and [Event],
  which makes a new object from a mapping of fields. *)
Definition construct (c : variant) (fs : gmap string pyval) (st : state)
: ref * state :=
(length (heap st),
 mkState (dataset st) (cache st) (heap st ++ [mkRecord c fs])).

(** Modelled from the spec: [Record.fetch(key)].  It returns the cached
  record if one was constructed before; otherwise it constructs the
  record from the dataset, in the variant of the key's category,
  caches it and returns it; it fails with a lookup error if the
  dataset lacks the key. *)
Definition fetch (key : string) (st : state) : Result ref * state :=
match cache st !! key with
| Some r => (Ok r, st)
| None =>
    match dataset st !! key with
    | None => (Raise KeyError, st)
    | Some fs =>
        let '(r, st') := construct (variant_of (category key)) fs st in
        (Ok r, mkState (dataset st') (<[key := r]> (cache st')) (heap st'))
    end
end.

(** Modelled from the spec: a run of calls of [Record.fetch], results
  dropped. *)
Definition fetch_all (keys : list string) (st : state) : state :=
foldl (fun s k => snd (fetch k s)) st keys.

(** Modelled from the spec: what a process of [schedule_v2] does to the
  state, one step at a time.  It fetches a record, or it constructs
  one directly, as the tests do with [Record(spam=99, eggs=12)]. *)
Inductive step : state -> state -> Prop :=
| step_fetch (st : state) (key : string) :
  step st (snd (fetch key st))
| step_construct (st : state) (c : variant) (fs : gmap string pyval) :
  step st (snd (construct c fs st)).

(** Modelled from the spec: the states a process of [schedule_v2] can be
  in, once the dataset is preloaded. *)
Definition reachable (d : gmap string (gmap string pyval)) (st : state) : Prop :=
rtc step (init d) st.

(** Modelled from the spec: attribute access [rec.name] on a record of
  [schedule_v2], the value of the field or an attribute error. *)
Definition getattr (r : record) (name : string) : Result pyval :=
match fields r !! name with
| Some v => Ok v
| None => Raise AttributeError
end.

(** Modelled from the spec: the object a reference of [schedule_v2]
  stands for. *)
Definition deref (st : state) (r : ref) : option record := heap st !! r.

(** Modelled from the spec: the display form of a record of
  [schedule_v2], the default representation of an object or a text
  of its own. *)
Inductive display_form : Type :=
| DefaultRepr
| Shown (text : string).

Section Display.
(** The key of the title field, which the specification does not
name, and the builtin [repr]. *)
Variable title_field : string.
Variable repr : pyval -> string.

(** Modelled from the spec: the fallback display form of an event of
[schedule_v2], which shows its serial number, written as
[test_event_repr] expects it. *)
Definition serial_form (r : record) : Result display_form :=
s ← getattr r "serial";
Ok (Shown ("<Event serial=" +:+ repr s +:+ ">")).

(** Modelled from the spec: the display form of [schedule_v2].  A generic
record shows the default representation; an event shows its title
field if present and otherwise falls back to its serial number. *)
Definition display (r : record) : Result display_form :=
match cls r with
| Generic => Ok DefaultRepr
| Event =>
  match getattr r title_field with
  | Ok title => Ok (Shown ("<Event " +:+ repr title +:+ ">"))
  | Raise _ => serial_form r
  end
end.
End Display.

Section Venue.
Variable str : pyval -> string.

(** Modelled from the spec: the derived [venue] property of an event of
[schedule_v2], which rebuilds the key [venue.<venue_serial>] and
resolves it through [fetch]. *)
Definition venue (r : record) (st : state) : Result ref * state :=
match getattr r "venue_serial" with
| Ok serial => fetch ("venue." +:+ str serial) st
| Raise e => (Raise e, st)
end.
End Venue.

(** What holds of the modelled cache in every reachable state: the
  dataset is the preloaded one, every cached reference points to the
  record built from the entry of its key, and no object is cached
  under two keys. *)
Record inv (d : gmap string (gmap string pyval)) (st : state) : Prop := mkInv {
inv_dataset : dataset st = d;
inv_cache : forall (k : string) (r : ref),
  cache st !! k = Some r ->
  exists fs, d !! k = Some fs /\
             heap st !! r = Some (mkRecord (variant_of (category k)) fs);
inv_inj : forall (k1 k2 : string) (r : ref),
  cache st !! k1 = Some r -> cache st !! k2 = Some r -> k1 = k2
}.

End Schedule.

(** ** The text methods of class [Vector2d]

    [__repr__], [__str__], [angle] and [__format__] go through three
    builtins that have no definition to embed: the printer of finite
    floats, [format] on a float, and [math.atan2].  They are parameters
    of the section. *)

Module Vector2dText.
Import Float64.

(** [s.endswith('p')]. *)
Fixpoint endswith_p (s : string) : bool :=
match s with
| EmptyString => false
| String c EmptyString => Ascii.eqb c "p"
| String _ s' => endswith_p s'
end.

(** [s[:-1]]. *)
Fixpoint drop_last (s : string) : string :=
match s with
| EmptyString => EmptyString
| String _ EmptyString => EmptyString
| String c s' => String c (drop_last s')
end.

Section Printer.
(** [repr(f)] of a finite float. *)
Variable repr_finite : float -> string.

(** [repr(f)] and [str(f)] of any float. *)
Definition float_repr (f : float) : string :=
match f with
| S754_nan => "nan"
| S754_infinity false => "inf"
| S754_infinity true => "-inf"
| _ => repr_finite f
end.

(** ['Vector2d({!r}, {!r})'.format( *self)]. *)
Definition __repr__ (self : Vector2d.t) : string :=
"Vector2d(" +:+ float_repr (Vector2d.x self) +:+ ", "
          +:+ float_repr (Vector2d.y self) +:+ ")".

(** [str(tuple(self))]. *)
Definition __str__ (self : Vector2d.t) : string :=
"(" +:+ float_repr (Vector2d.x self) +:+ ", "
  +:+ float_repr (Vector2d.y self) +:+ ")".
End Printer.

Section Format.
(** [format(f, fmt_spec)] of a float; an invalid specifier raises
[ValueError]. *)
Variable float_format : float -> string -> Result string.
(** [math.atan2(y, x)]. *)
Variable atan2 : float -> float -> float.

Definition angle (self : Vector2d.t) : float :=
atan2 (Vector2d.y self) (Vector2d.x self).

(** [outer_fmt.format( *components)] for the two outer formats. *)
Definition outer (opening closing : string) (a b : string) : string :=
opening +:+ a +:+ ", " +:+ b +:+ closing.

Definition __format__ (self : Vector2d.t) (fmt_spec : string) : Result string :=
if endswith_p fmt_spec then
let fmt_spec := drop_last fmt_spec in
a ← float_format (Vector2d.__abs__ self) fmt_spec;
b ← float_format (angle self) fmt_spec;
Ok (outer "<" ">" a b)
else
a ← float_format (Vector2d.x self) fmt_spec;
b ← float_format (Vector2d.y self) fmt_spec;
Ok (outer "(" ")" a b).
End Format.

(** *** Evaluating a representation

  [eval] on the text of a call [Vector2d(a, b)] in the namespace of
  the module, which binds [array], [math] and [Vector2d].  An
  argument is an optional minus sign before a name or a float
  literal; the value of a literal is a parameter. *)

Definition is_name_start (c : ascii) : bool :=
let n := nat_of_ascii c in
((65 <=? n) && (n <=? 90) || (97 <=? n) && (n <=? 122) || (n =? 95))%nat.

Definition module_names : list string := ["array"; "math"; "Vector2d"].

Definition is_delimiter (c : ascii) : bool :=
Ascii.eqb c "," || Ascii.eqb c ")".

(** The text up to the next delimiter, and the rest. *)
Fixpoint span (s : string) : string * string :=
match s with
| EmptyString => (EmptyString, EmptyString)
| String c s' =>
    if is_delimiter c then (EmptyString, s)
    else let '(a, rest) := span s' in (String c a, rest)
end.

Fixpoint strip_prefix (p s : string) : option string :=
match p, s with
| EmptyString, _ => Some s
| String c p', String d s' =>
    if Ascii.eqb c d then strip_prefix p' s' else None
| _, _ => None
end.

Fixpoint skip_spaces (s : string) : string :=
match s with
| String c s' => if Ascii.eqb c " " then skip_spaces s' else s
| EmptyString => s
end.

(** The arguments as the parser reads them. *)
Inductive expr : Type :=
| EName (name : string)
| ELit (f : float)
| ENeg (e : expr).

(** A name evaluates to what the namespace binds it to.  The module
  binds no float, so a bound name is rejected by [float()] in the
  constructor; a name that is not bound raises [NameError].  The
  printer of floats produces two names, [inf] and [nan], and neither
  is bound (the builtins, which bind neither, are not listed). *)
Definition eval_name (name : string) : Result float :=
if existsb (String.eqb name) module_names
then Raise TypeError else Raise NameError.

Fixpoint eval_expr (e : expr) : Result float :=
match e with
| EName name => eval_name name
| ELit f => Ok f
| ENeg e' => f ← eval_expr e'; Ok (SFopp f)
end.

Section Eval.
(** The value of a float literal; [None] when the text is not one. *)
Variable float_literal : string -> option float.

Definition parse_atom (text : string) : Result expr :=
match text with
| EmptyString => Raise SyntaxError
| String c _ =>
  if is_name_start c then Ok (EName text)
  else match float_literal text with
       | Some f => Ok (ELit f)
       | None => Raise SyntaxError
       end
end.

Definition parse_arg (text : string) : Result expr :=
match text with
| String "-" rest => e ← parse_atom rest; Ok (ENeg e)
| _ => parse_atom text
end.

(** The source is parsed as a whole, then the arguments are
evaluated from left to right and the class is called. *)
Definition eval_ (src : string) : Result Vector2d.t :=
match strip_prefix "Vector2d(" src with
| None => Raise SyntaxError
| Some rest =>
  let '(a, rest) := span rest in
  match rest with
  | String "," rest =>
      let '(b, rest) := span (skip_spaces rest) in
      match rest with
      | String ")" EmptyString =>
          ea ← parse_arg a;
          eb ← parse_arg b;
          fa ← eval_expr ea;
          fb ← eval_expr eb;
          Vector2d.new (NFloat fa) (NFloat fb)
      | _ => Raise SyntaxError
      end
  | _ => Raise SyntaxError
  end
end.
End Eval.

(** A text that the parser takes as one argument: no comma, no closing
  parenthesis, no blank in front. *)
Fixpoint no_delimiter (s : string) : bool :=
match s with
| EmptyString => true
| String c s' => negb (is_delimiter c) && no_delimiter s'
end.

Definition one_argument (s : string) : bool :=
no_delimiter s &&
match s with
| String c _ => negb (Ascii.eqb c " ")
| EmptyString => true
end.

(** The printed text of [f] reads back as a float equal to [f]: what
  the runtime promises of [repr] on finite floats. *)
Definition reads_back (repr_finite : float -> string)
         (float_literal : string -> option float) (f : float) : Prop :=
one_argument (float_repr repr_finite f) = true /\
exists (e : expr) (g : float),
  parse_arg float_literal (float_repr repr_finite f) = Ok e /\
  eval_expr e = Ok g /\ eqb g f = true.

End Vector2dText.

(** ** Sample data: the values of the doctests and of the test module *)

Module Sample.
Import Float64.

(** [Vector2d(3, 4)] and [Vector2d(0, 0)]. *)
Definition v34 : Vector2d.t := Vector2d.mk (lit 3) (lit 4).
Definition v00 : Vector2d.t := Vector2d.mk (lit 0) (lit 0).

(** The instance dictionary of [Vector2d(3, 4)]. *)
Definition v34_instance : gmap string pyval :=
<["_Vector2d__y" := PyNum (NFloat (lit 4))]>
  (<["_Vector2d__x" := PyNum (NFloat (lit 3))]> ∅).

Definition inf : float := S754_infinity false.

(** The printer and the reader of floats on the two numbers of the
  doctests, [3.0] and [4.0]. *)
Definition repr_finite (f : float) : string :=
if eqb f (lit 3) then "3.0"
else if eqb f (lit 4) then "4.0"
else EmptyString.

Definition float_literal (s : string) : option float :=
if String.eqb s "3.0" then Some (lit 3)
else if String.eqb s "4.0" then Some (lit 4)
else None.

Definition repr : pyval -> string :=
Text.repr (Vector2dText.float_repr repr_finite).

Definition str : pyval -> string :=
Text.str (Vector2dText.float_repr repr_finite).

(** Four entries of the conference schedule the tests read.  The
  dataset keeps the title of an event under [name]. *)
Definition title_field : string := "name".

Definition int (n : Z) : pyval := PyNum (NInt n).

Definition osconfeed : gmap string (gmap string pyval) :=
list_to_map
  [("venue.1449",
     list_to_map [("serial", int 1449); ("name", PyStr "Portland 251")]);
   ("venue.1469",
     list_to_map [("serial", int 1469); ("name", PyStr "Exhibit Hall C")]);
   ("speaker.3471",
     list_to_map [("serial", int 3471);
                  ("name", PyStr "Anna Martelli Ravenscroft")]);
   ("event.33950",
     list_to_map [("serial", int 33950);
                  ("name", PyStr "There *Will* Be Bugs");
                  ("venue_serial", int 1449)])].

(** [Event(serial=77, kind='show')]. *)
Definition event2 : Schedule.record :=
Schedule.mkRecord Schedule.Event
  (list_to_map [("serial", int 77); ("kind", PyStr "show")]).

(** The record of [event.33950]. *)
Definition event33950 : Schedule.record :=
Schedule.mkRecord Schedule.Event
  (list_to_map [("serial", int 33950);
                ("name", PyStr "There *Will* Be Bugs");
                ("venue_serial", int 1449)]).

(** [Record(spam=99, eggs=12)]. *)
Definition spam_eggs : Schedule.record :=
Schedule.mkRecord Schedule.Generic
  (list_to_map [("spam", int 99); ("eggs", int 12)]).

(** The sixteen octets of [bytes(Vector2d(3, 4))] on a little-endian
  machine. *)
Definition octets34 : list Byte.byte :=
[Byte.x00; Byte.x00; Byte.x00; Byte.x00; Byte.x00; Byte.x00; Byte.x08; Byte.x40;
 Byte.x00; Byte.x00; Byte.x00; Byte.x00; Byte.x00; Byte.x00; Byte.x10; Byte.x40].

(** A heap of four float objects: a NaN, the two zeros, and [4.0]
  everywhere else. *)
Definition heap4 : Vector2dHeap.heap :=
fun a =>
  match a with
  | O => S754_nan
  | S O => S754_zero false
  | S (S O) => S754_zero true
  | _ => lit 4
  end.

(** [format(f, spec)] on the empty specifier, the one the doctest
  [format(v1)] uses. *)
Definition float_format (f : float) (spec : string) : Result string :=
match spec with
| EmptyString => Ok (Vector2dText.float_repr repr_finite f)
| String _ _ => Raise ValueError
end.

End Sample.

(** * Properties *)

(** ** Floats *)

Module Float64Facts.
Import Float64.

(** Powers of two as numerals, so that linear arithmetic applies. *)
Ltac pow2 :=
repeat match goal with
  | |- context [2 ^ ?k] =>
      match k with
      | Zpos _ => let v := eval vm_compute in (2 ^ k) in change (2 ^ k) with v
      end
  | H : context [2 ^ ?k] |- _ =>
      match k with
      | Zpos _ => let v := eval vm_compute in (2 ^ k) in change (2 ^ k) with v in H
      end
  end.

(** The number of binary digits of a mantissa. *)
Lemma digits2_bounds (m : positive) :
2 ^ (Zpos (digits2_pos m) - 1) <= Zpos m < 2 ^ Zpos (digits2_pos m).
Proof.
induction m as [m IH | m IH |]; cbn [digits2_pos].
- rewrite Pos2Z.inj_succ.
  replace (Z.succ (Zpos (digits2_pos m)) - 1) with (Z.succ (Zpos (digits2_pos m) - 1)) by lia.
  rewrite !Z.pow_succ_r by lia. lia.
- rewrite Pos2Z.inj_succ.
  replace (Z.succ (Zpos (digits2_pos m)) - 1) with (Z.succ (Zpos (digits2_pos m) - 1)) by lia.
  rewrite !Z.pow_succ_r by lia. lia.
- cbn. lia.
Qed.

(** The two shapes of a valid finite double. *)
Lemma valid_finite_cases (s : bool) (m : positive) (e : Z) :
valid (S754_finite s m e) = true ->
(2 ^ 52 <= Zpos m < 2 ^ 53 /\ -1074 <= e <= 971) \/
(Zpos m < 2 ^ 52 /\ e = -1074).
Proof.
unfold valid, valid_binary, bounded, canonical_mantissa, fexp, SpecFloat.emin, prec, emax.
intros H. apply andb_true_iff in H as [Hc He].
apply Z.eqb_eq in Hc. apply Z.leb_le in He.
pose proof (digits2_bounds m) as [Hlo Hhi].
set (d := Zpos (digits2_pos m)) in *.
destruct (Z_lt_le_dec 53 d) as [Hd | Hd]; [lia |].
destruct (Z.eq_dec d 53) as [Hd53 | Hd53].
- left. rewrite Hd53 in Hlo, Hhi. change (53 - 1) with 52 in Hlo. lia.
- right. assert (d <= 52) by lia. split; [| lia].
  apply Z.lt_le_trans with (2 ^ d); [exact Hhi |].
  apply Z.pow_le_mono_r; lia.
Qed.

(** How a pattern given by its three fields is read. *)
Lemma float_of_bits_sum (s : bool) (E F : Z) :
0 <= E < 2 ^ 11 -> 0 <= F < 2 ^ 52 ->
float_of_bits (sign_bit s + E * 2 ^ 52 + F) =
  if E =? 0 then
    match F with
    | Zpos m => S754_finite s m (-1074)
    | _ => S754_zero s
    end
  else if E =? 2047 then
    if F =? 0 then S754_infinity s else S754_nan
  else
    match F + 2 ^ 52 with
    | Zpos m => S754_finite s m (E - 1075)
    | _ => S754_nan
    end.
Proof.
intros HE HF. unfold float_of_bits.
set (b := sign_bit s + E * 2 ^ 52 + F).
assert (Hs : Z.testbit b 63 = s).
{ rewrite Z.testbit_odd, Z.shiftr_div_pow2 by lia.
  replace (b / 2 ^ 63) with (if s then 1 else 0); [now destruct s |].
  subst b. unfold sign_bit. pow2. destruct s; Z.div_mod_to_equations; lia. }
assert (Hb : Z.land (Z.shiftr b 52) (Z.ones 11) = E).
{ rewrite Z.land_ones, Z.shiftr_div_pow2 by lia.
  subst b. unfold sign_bit. pow2. destruct s; Z.div_mod_to_equations; lia. }
assert (Hf : Z.land b (Z.ones 52) = F).
{ rewrite Z.land_ones by lia.
  subst b. unfold sign_bit. pow2. destruct s; Z.div_mod_to_equations; lia. }
rewrite Hs, Hb, Hf. reflexivity.
Qed.

(** Reading back the pattern of a double gives the double. *)
Lemma float_of_bits_of_float (f : float) :
valid f = true -> float_of_bits (bits_of_float f) = f.
Proof.
destruct f as [s | s | | s m e]; intros Hv; cbn [bits_of_float].
- replace (sign_bit s) with (sign_bit s + 0 * 2 ^ 52 + 0) by lia.
  rewrite float_of_bits_sum by (pow2; lia). reflexivity.
- replace (sign_bit s + 2047 * 2 ^ 52) with (sign_bit s + 2047 * 2 ^ 52 + 0) by lia.
  rewrite float_of_bits_sum by (pow2; lia). reflexivity.
- replace (2047 * 2 ^ 52 + 2 ^ 51) with (sign_bit false + 2047 * 2 ^ 52 + 2 ^ 51)
    by (unfold sign_bit; lia).
  rewrite float_of_bits_sum by (pow2; lia). reflexivity.
- destruct (valid_finite_cases s m e Hv) as [[Hm He] | [Hm He]].
  + destruct (Z.leb_spec (2 ^ 52) (Zpos m)) as [_ | Hlt]; [| lia].
    rewrite float_of_bits_sum by (pow2; lia).
    destruct (Z.eqb_spec (e + 1075) 0) as [H0 | _]; [lia |].
    destruct (Z.eqb_spec (e + 1075) 2047) as [H1 | _]; [lia |].
    replace (Zpos m - 2 ^ 52 + 2 ^ 52) with (Zpos m) by lia.
    f_equal. lia.
  + destruct (Z.leb_spec (2 ^ 52) (Zpos m)) as [Hle | _]; [lia |].
    replace (sign_bit s + Zpos m) with (sign_bit s + 0 * 2 ^ 52 + Zpos m) by lia.
    rewrite float_of_bits_sum by (pow2; lia).
    cbn. now subst e.
Qed.

Lemma bits_of_float_range (f : float) :
valid f = true -> 0 <= bits_of_float f < 2 ^ 64.
Proof.
destruct f as [s | s | | s m e]; intros Hv; cbn [bits_of_float];
  unfold sign_bit; pow2.
- destruct s; lia.
- destruct s; lia.
- lia.
- destruct (valid_finite_cases s m e Hv) as [[Hm He] | [Hm He]]; pow2.
  + destruct (Z.leb_spec 4503599627370496 (Zpos m)); destruct s; lia.
  + destruct (Z.leb_spec 4503599627370496 (Zpos m)); destruct s; lia.
Qed.

Lemma digits2_le (m : positive) (k : Z) :
0 <= k -> Zpos m < 2 ^ k -> Zpos (digits2_pos m) <= k.
Proof.
intros Hk Hm. pose proof (digits2_bounds m) as [Hlo _].
destruct (Z_le_gt_dec (Zpos (digits2_pos m)) k) as [H | H]; [exact H |].
assert (2 ^ k <= 2 ^ (Zpos (digits2_pos m) - 1)) by (apply Z.pow_le_mono_r; lia).
lia.
Qed.

Lemma digits2_ge (m : positive) (k : Z) :
0 <= k -> 2 ^ k <= Zpos m -> k + 1 <= Zpos (digits2_pos m).
Proof.
intros Hk Hm. pose proof (digits2_bounds m) as [_ Hhi].
destruct (Z_le_gt_dec (k + 1) (Zpos (digits2_pos m))) as [H | H]; [exact H |].
assert (2 ^ Zpos (digits2_pos m) <= 2 ^ k) by (apply Z.pow_le_mono_r; lia).
lia.
Qed.

(** Every pattern is read as a double. *)
Lemma float_of_bits_valid (b : Z) : valid (float_of_bits b) = true.
Proof.
unfold float_of_bits.
set (s := Z.testbit b 63).
set (E := Z.land (Z.shiftr b 52) (Z.ones 11)).
set (F := Z.land b (Z.ones 52)).
assert (HE : 0 <= E < 2 ^ 11).
{ subst E. rewrite Z.land_ones by lia. apply Z.mod_pos_bound. lia. }
assert (HF : 0 <= F < 2 ^ 52).
{ subst F. rewrite Z.land_ones by lia. apply Z.mod_pos_bound. lia. }
clearbody s E F.
destruct (Z.eqb_spec E 0) as [-> | HE0].
- destruct F as [| m | m]; try reflexivity.
  unfold valid, valid_binary, bounded, canonical_mantissa, fexp,
    SpecFloat.emin, prec, emax.
  pose proof (digits2_le m 52 ltac:(lia) (proj2 HF)).
  apply andb_true_iff. split; [apply Z.eqb_eq | apply Z.leb_le]; lia.
- destruct (Z.eqb_spec E 2047) as [-> | HE1].
  + now destruct (F =? 0).
  + destruct (F + 2 ^ 52) as [| m | m] eqn:Hm; try reflexivity.
    unfold valid, valid_binary, bounded, canonical_mantissa, fexp,
      SpecFloat.emin, prec, emax.
    assert (Hlo : 2 ^ 52 <= Zpos m) by lia.
    assert (Hhi : Zpos m < 2 ^ 53) by (change (2 ^ 53) with (2 ^ 52 + 2 ^ 52); lia).
    pose proof (digits2_le m 53 ltac:(lia) Hhi).
    pose proof (digits2_ge m 52 ltac:(lia) Hlo).
    change (2 ^ 11) with 2048 in HE.
    apply andb_true_iff. split; [apply Z.eqb_eq | apply Z.leb_le]; lia.
Qed.

(** *** Bytes *)

Lemma Z_of_byte_of_Z (z : Z) : Z_of_byte (byte_of_Z z) = z mod 256.
Proof.
unfold Z_of_byte, byte_of_Z.
assert (Hr : 0 <= z mod 256 < 256) by (apply Z.mod_pos_bound; lia).
destruct (Byte.of_N (Z.to_N (z mod 256))) as [b |] eqn:Hb.
- apply Byte.to_of_N in Hb. rewrite Hb. lia.
- apply Byte.of_N_None_iff in Hb. lia.
Qed.

Lemma length_le_bytes (n : nat) (z : Z) : length (le_bytes n z) = n.
Proof. revert z. induction n as [| n IH]; intros z; cbn; [reflexivity | now rewrite IH]. Qed.

Lemma le_value_le_bytes (n : nat) (z : Z) :
le_value (le_bytes n z) = z mod 2 ^ (8 * Z.of_nat n).
Proof.
revert z. induction n as [| n IH]; intros z.
- cbn. now rewrite Z.mod_1_r.
- cbn [le_bytes le_value]. rewrite IH, Z_of_byte_of_Z.
  rewrite Z.shiftl_mul_pow2, Z.shiftr_div_pow2 by lia.
  replace (8 * Z.of_nat (S n)) with (8 + 8 * Z.of_nat n) by lia.
  rewrite Z.pow_add_r by lia.
  change (2 ^ 8) with 256.
  rewrite (Z.rem_mul_r z 256 (2 ^ (8 * Z.of_nat n))) by lia.
  lia.
Qed.

(** The eight bytes of a double read back as the double, in either
  byte order. *)
Lemma unpack_pack (o : byteorder) (f : float) :
valid f = true -> unpack o (pack o f) = f.
Proof.
intros Hv. unfold unpack, pack.
assert (H : le_value (le_bytes 8 (bits_of_float f)) = bits_of_float f).
{ rewrite le_value_le_bytes. apply Z.mod_small.
  change (2 ^ (8 * Z.of_nat 8)) with (2 ^ 64).
  now apply bits_of_float_range. }
destruct o; [| rewrite rev_involutive]; rewrite H;
  now apply float_of_bits_of_float.
Qed.

Lemma unpack_valid (o : byteorder) (l : list Byte.byte) : valid (unpack o l) = true.
Proof. apply float_of_bits_valid. Qed.

Lemma length_pack (o : byteorder) (f : float) : length (pack o f) = 8%nat.
Proof.
unfold pack. destruct o; [| rewrite length_rev]; apply length_le_bytes.
Qed.

(** *** Equality and hashing *)

(** [==] on floats holds between the two zeros, and otherwise only
  between a number and itself. *)
Lemma eqb_true_inv (a b : float) :
eqb a b = true -> (is_zero a = true /\ is_zero b = true) \/ (a = b /\ is_nan a = false).
Proof.
unfold eqb, SFeqb.
destruct a as [s | s | | s m e], b as [s' | s' | | s' m' e']; cbn;
  try discriminate; try (destruct s; discriminate); try (destruct s'; discriminate).
- intros _. now left.
- destruct s, s'; try discriminate; intros _; now right.
- destruct s, s'; try discriminate.
  + destruct (Z.compare_spec e e') as [He | |]; try discriminate.
    change (Pos.compare_cont Eq m m') with (Pos.compare m m').
    destruct (Pos.compare_spec m m') as [Hm | |]; try discriminate.
    intros _. right. now subst.
  + destruct (Z.compare_spec e e') as [He | |]; try discriminate.
    change (Pos.compare_cont Eq m m') with (Pos.compare m m').
    destruct (Pos.compare_spec m m') as [Hm | |]; try discriminate.
    intros _. right. now subst.
Qed.

Lemma eqb_refl (a : float) : is_nan a = false -> eqb a a = true.
Proof.
unfold eqb, SFeqb. destruct a as [s | s | | s m e]; cbn; try discriminate; intros _.
- reflexivity.
- now destruct s.
- rewrite Z.compare_refl.
  rewrite Pos.compare_cont_refl. now destruct s.
Qed.

(** Equal floats hash equally. *)
Lemma eqb_hash (a b : float) : eqb a b = true -> hash a = hash b.
Proof.
intros H. apply eqb_true_inv in H as [[Ha Hb] | [-> _]]; [| reflexivity].
destruct a, b; try discriminate. reflexivity.
Qed.

Lemma eqb_zero (a : float) : eqb a (S754_zero false) = is_zero a.
Proof. unfold eqb, SFeqb. destruct a as [s | s | | s m e]; cbn; try reflexivity; now destruct s. Qed.

(** *** Rounding never loses a number that is at least the smallest
  subnormal *)

Lemma shr_1_m (mrs : shr_record) :
0 <= shr_m mrs -> shr_m (shr_1 mrs) = shr_m mrs / 2.
Proof.
destruct mrs as [m r s]; cbn. intros Hm.
destruct m as [| [p | p |] | p]; cbn [shr_m] in *;
  try reflexivity; Z.div_mod_to_equations; lia.
Qed.

Lemma pow2_xO (n : positive) : 2 ^ Zpos n~0 = 2 ^ Zpos n * 2 ^ Zpos n.
Proof. rewrite <- Z.pow_add_r by lia. f_equal. lia. Qed.

Lemma pow2_xI (n : positive) : 2 ^ Zpos n~1 = 2 * (2 ^ Zpos n * 2 ^ Zpos n).
Proof.
rewrite <- Z.pow_add_r by lia.
replace (Zpos n~1) with (Z.succ (Zpos n + Zpos n)) by lia.
now rewrite Z.pow_succ_r by lia.
Qed.

Lemma iter_shr_1_m (n : positive) (mrs : shr_record) :
0 <= shr_m mrs ->
shr_m (SpecFloat.iter_pos shr_1 n mrs) = shr_m mrs / 2 ^ Zpos n.
Proof.
revert mrs. induction n as [n IH | n IH |]; intros mrs Hm;
  cbn [SpecFloat.iter_pos];
  try assert (Hp : 0 < 2 ^ Zpos n) by (apply Z.pow_pos_nonneg; lia).
- assert (H1 : 0 <= shr_m (shr_1 mrs))
    by (rewrite shr_1_m by lia; apply Z.div_pos; lia).
  assert (H2 : 0 <= shr_m (SpecFloat.iter_pos shr_1 n (shr_1 mrs)))
    by (rewrite IH by lia; apply Z.div_pos; lia).
  rewrite IH, IH, shr_1_m by lia.
  rewrite !Z.div_div by lia.
  f_equal. rewrite pow2_xI. ring.
- assert (H2 : 0 <= shr_m (SpecFloat.iter_pos shr_1 n mrs))
    by (rewrite IH by lia; apply Z.div_pos; lia).
  rewrite IH, IH by lia.
  rewrite !Z.div_div by lia.
  f_equal. rewrite pow2_xO. ring.
- rewrite shr_1_m by lia. reflexivity.
Qed.

Lemma shr_m_of_loc (m : Z) (l : location) : shr_m (shr_record_of_loc m l) = m.
Proof. destruct l as [| []]; reflexivity. Qed.

Lemma shr_fexp_pos (m : positive) (e : Z) (l : location) :
-1074 <= e ->
1 <= shr_m (fst (shr_fexp prec emax (Zpos m) e l)) /\
-1074 <= snd (shr_fexp prec emax (Zpos m) e l).
Proof.
intros He. unfold shr_fexp, shr, fexp, SpecFloat.emin, prec, emax. cbn [Zdigits2].
pose proof (digits2_bounds m) as [Hlo Hhi].
set (d := Zpos (digits2_pos m)) in *.
assert (Hd : 1 <= d) by (subst d; lia).
destruct (Z.max (d + e - 53) (3 - 1024 - 53) - e) as [| n | n] eqn:Hn;
  cbn [fst snd]; rewrite ?shr_m_of_loc; try lia.
rewrite iter_shr_1_m by (rewrite shr_m_of_loc; lia).
rewrite shr_m_of_loc. split; [| lia].
assert (Hnd : Zpos n <= d - 1) by lia.
apply Z.div_le_lower_bound; [apply Z.pow_pos_nonneg; lia |].
rewrite Z.mul_1_r.
apply Z.le_trans with (2 ^ (d - 1)); [apply Z.pow_le_mono_r; lia | lia].
Qed.

Lemma binary_round_aux_nonzero (m : positive) (e : Z) (l : location) :
-1074 <= e ->
is_zero (binary_round_aux prec emax false (Zpos m) e l) = false.
Proof.
intros He. unfold binary_round_aux.
destruct (shr_fexp_pos m e l He) as [H1 H2].
destruct (shr_fexp prec emax (Zpos m) e l) as [mrs' e'] eqn:E1. cbn [fst snd] in *.
set (m1 := round_nearest_even (shr_m mrs') (loc_of_shr_record mrs')).
assert (Hm1 : 1 <= m1).
{ subst m1. unfold round_nearest_even.
  destruct (loc_of_shr_record mrs') as [| []]; try lia.
  destruct (Z.even (shr_m mrs')); lia. }
destruct m1 as [| p1 | p1] eqn:Ep; try lia.
destruct (shr_fexp_pos p1 e' loc_Exact H2) as [H3 H4].
destruct (shr_fexp prec emax (Zpos p1) e' loc_Exact) as [mrs'' e''] eqn:E2. cbn [fst snd] in *.
destruct (shr_m mrs'') as [| p2 | p2]; try lia.
now destruct (e'' <=? emax - prec).
Qed.

Lemma sqrt_core_pos (m : positive) (e : Z) :
-2148 <= e ->
exists (q : positive) (e' : Z) (l : location),
  SFsqrt_core_binary prec emax (Zpos m) e = (Zpos q, e', l) /\ -1074 <= e'.
Proof.
intros He. unfold SFsqrt_core_binary, fexp, SpecFloat.emin, prec, emax.
set (e' := Z.min _ (Z.div2 e)).
assert (He' : -1074 <= e' /\ 2 * e' <= e).
{ subst e'. rewrite !Z.div2_div. Z.div_mod_to_equations. lia. }
set (s := e - 2 * e').
set (m' := match s with Z0 => Zpos m | Zpos _ => Z.shiftl (Zpos m) s | Zneg _ => 0 end).
assert (Hm' : 1 <= m').
{ subst m'. destruct s as [| p | p] eqn:Es; try lia.
  rewrite Z.shiftl_mul_pow2 by lia.
  assert (0 < 2 ^ Zpos p) by (apply Z.pow_pos_nonneg; lia). nia. }
pose proof (Z.sqrtrem_spec m' ltac:(lia)) as Hspec.
destruct (Z.sqrtrem m') as [q r].
assert (Hq : 1 <= q) by nia.
destruct q as [| q | q]; try lia.
eexists q, e', _. split; [reflexivity | lia].
Qed.

(** The magnitude is zero only for the zero vector. *)
Lemma hypot_zero_iff (x y : float) :
valid x = true -> valid y = true ->
is_zero (hypot x y) = is_zero x && is_zero y.
Proof.
intros Hx Hy. unfold hypot.
destruct (is_inf x || is_inf y) eqn:Hinf.
{ destruct x, y; cbn in *; try discriminate; reflexivity. }
destruct (is_nan x || is_nan y) eqn:Hnan.
{ destruct x, y; cbn in *; try discriminate; reflexivity. }
assert (Hcases : (is_zero x && is_zero y = true /\ fst (sum_squares x y) = 0)
              \/ (is_zero x && is_zero y = false /\
                  exists m, fst (sum_squares x y) = Zpos m /\ -2148 <= snd (sum_squares x y))).
{ assert (Hpow : forall k, 0 < 2 ^ (k - Z.min k 0) /\ 0 < 2 ^ (0 - Z.min 0 k)).
  { intros k. split; apply Z.pow_pos_nonneg; lia. }
  destruct x as [sx | sx | | sx mx ex], y as [sy | sy | | sy my ey];
    try discriminate; unfold sum_squares; cbn [mag is_zero andb fst snd].
  - left. split; [reflexivity | lia].
  - right. split; [reflexivity |].
    destruct (valid_finite_cases _ _ _ Hy) as [[? ?] | [? ?]];
    set (p := 2 ^ (ey - Z.min 0 ey)); assert (0 < p) by (apply Z.pow_pos_nonneg; lia);
    (assert (Hpos : 0 < (0 * 2 ^ (0 - Z.min 0 ey)) ^ 2 + (Zpos my * p) ^ 2) by nia);
    destruct ((0 * 2 ^ (0 - Z.min 0 ey)) ^ 2 + (Zpos my * p) ^ 2) as [| q | q]; try lia;
    exists q; (split; [reflexivity | lia]).
  - right. split; [reflexivity |].
    destruct (valid_finite_cases _ _ _ Hx) as [[? ?] | [? ?]];
    set (p := 2 ^ (ex - Z.min ex 0)); assert (0 < p) by (apply Z.pow_pos_nonneg; lia);
    (assert (Hpos : 0 < (Zpos mx * p) ^ 2 + (0 * 2 ^ (0 - Z.min ex 0)) ^ 2) by nia);
    destruct ((Zpos mx * p) ^ 2 + (0 * 2 ^ (0 - Z.min ex 0)) ^ 2) as [| q | q]; try lia;
    exists q; (split; [reflexivity | lia]).
  - right. split; [reflexivity |].
    set (p := 2 ^ (ex - Z.min ex ey)); assert (0 < p) by (apply Z.pow_pos_nonneg; lia).
    set (p' := 2 ^ (ey - Z.min ex ey)); assert (0 < p') by (apply Z.pow_pos_nonneg; lia).
    assert (Hpos : 0 < (Zpos mx * p) ^ 2 + (Zpos my * p') ^ 2) by nia.
    assert (He : -2148 <= 2 * Z.min ex ey).
    { destruct (valid_finite_cases _ _ _ Hx) as [[? ?] | [? ?]];
      destruct (valid_finite_cases _ _ _ Hy) as [[? ?] | [? ?]]; lia. }
    destruct ((Zpos mx * p) ^ 2 + (Zpos my * p') ^ 2) as [| q | q]; try lia.
    exists q; (split; [reflexivity | lia]). }
destruct (sum_squares x y) as [m e]. cbn [fst snd] in Hcases.
destruct Hcases as [[Hz ->] | [Hz [q [-> He]]]]; rewrite Hz; [reflexivity |].
destruct (sqrt_core_pos q e He) as (mz & ez & lz & -> & Hez).
now apply binary_round_aux_nonzero.
Qed.

(** *** Rounding gives doubles *)

(** The number of digits is determined by the two powers of two around
  the number. *)
Lemma digits2_unique (m : positive) (d : Z) :
1 <= d -> 2 ^ (d - 1) <= Zpos m < 2 ^ d -> Zpos (digits2_pos m) = d.
Proof.
intros Hd [Hlo Hhi].
pose proof (digits2_le m d ltac:(lia) Hhi).
pose proof (digits2_ge m (d - 1) ltac:(lia) Hlo). lia.
Qed.

Lemma Zdigits2_shift (m : positive) (n : Z) :
0 <= n < Zpos (digits2_pos m) ->
Zdigits2 (Zpos m / 2 ^ n) = Zpos (digits2_pos m) - n.
Proof.
intros Hn. pose proof (digits2_bounds m) as [Hlo Hhi].
set (d := Zpos (digits2_pos m)) in *.
assert (Hp : 0 < 2 ^ n) by (apply Z.pow_pos_nonneg; lia).
assert (Hsplit : 2 ^ d = 2 ^ (d - n) * 2 ^ n)
  by (rewrite <- Z.pow_add_r by lia; f_equal; lia).
assert (Hsplit' : 2 ^ (d - 1) = 2 ^ (d - n - 1) * 2 ^ n)
  by (rewrite <- Z.pow_add_r by lia; f_equal; lia).
assert (Hq : 2 ^ (d - n - 1) <= Zpos m / 2 ^ n < 2 ^ (d - n)).
{ split.
  - apply Z.div_le_lower_bound; [lia |]. rewrite Z.mul_comm. lia.
  - apply Z.div_lt_upper_bound; [lia |]. rewrite Z.mul_comm. lia. }
assert (Hq0 : 0 < 2 ^ (d - n - 1)) by (apply Z.pow_pos_nonneg; lia).
destruct (Zpos m / 2 ^ n) as [| q | q] eqn:E; try lia.
cbn [Zdigits2]. apply digits2_unique; [lia |].
replace (d - n - 1) with (d - n - 1) in Hq by lia. exact Hq.
Qed.

Lemma fexp_le (a b : Z) : a <= b -> fexp prec emax a <= fexp prec emax b.
Proof. unfold fexp. lia. Qed.

(** One alignment step: from an exponent that is not above the canonical
  one, to the canonical one. *)
Lemma shr_fexp_canonical (m : positive) (e : Z) (l : location) :
e <= fexp prec emax (Zpos (digits2_pos m) + e) ->
let '(mrs, e1) := shr_fexp prec emax (Zpos m) e l in
0 <= shr_m mrs /\
(shr_m mrs = 0 -> e1 = SpecFloat.emin prec emax) /\
(0 < shr_m mrs -> fexp prec emax (Zdigits2 (shr_m mrs) + e1) = e1).
Proof.
intros Hpre. unfold shr_fexp, shr. cbn [Zdigits2].
set (d := Zpos (digits2_pos m)) in *.
assert (Hd : 1 <= d) by (subst d; lia).
destruct (fexp prec emax (d + e) - e) as [| n | n] eqn:Hn; try lia.
- rewrite shr_m_of_loc. cbn [Zdigits2]. fold d. split; [lia |]. split; [lia |].
  intros _. lia.
- rewrite iter_shr_1_m by (rewrite shr_m_of_loc; lia).
  rewrite shr_m_of_loc.
  assert (Hp : 0 < 2 ^ Zpos n) by (apply Z.pow_pos_nonneg; lia).
  split; [apply Z.div_pos; lia |].
  destruct (Z_lt_le_dec (Zpos n) d) as [Hlt | Hge].
  + pose proof (Zdigits2_shift m (Zpos n) ltac:(fold d; lia)) as Hdig. fold d in Hdig.
    split.
    * intros H0. rewrite H0 in Hdig. cbn in Hdig. lia.
    * intros _. rewrite Hdig.
      replace (d - Zpos n + (e + Zpos n)) with (d + e) by lia. lia.
  + split.
    * intros _. unfold fexp, SpecFloat.emin, prec, emax in *. lia.
    * intros Hpos. exfalso.
      pose proof (digits2_bounds m) as [_ Hhi]. fold d in Hhi.
      assert (Zpos m / 2 ^ Zpos n = 0).
      { apply Z.div_small. split; [lia |].
        apply Z.lt_le_trans with (2 ^ d); [exact Hhi |].
        apply Z.pow_le_mono_r; lia. }
      lia.
Qed.

Lemma digits2_succ_le (m : positive) :
Zpos (digits2_pos m) <= Zpos (digits2_pos (m + 1)).
Proof.
pose proof (digits2_bounds m) as [Hlo _].
assert (H : 2 ^ (Zpos (digits2_pos m) - 1) <= Zpos (m + 1)) by lia.
pose proof (digits2_ge (m + 1) (Zpos (digits2_pos m) - 1) ltac:(lia) H). lia.
Qed.

Lemma shr_fexp_zero (e : Z) (l : location) :
shr_m (fst (shr_fexp prec emax 0 e l)) = 0.
Proof.
unfold shr_fexp, shr.
destruct (fexp prec emax (Zdigits2 0 + e) - e) as [| n | n]; cbn [fst];
  rewrite ?iter_shr_1_m by (rewrite shr_m_of_loc; lia);
  rewrite shr_m_of_loc; reflexivity.
Qed.

(** Rounding a mantissa whose exponent is not above the canonical one
  gives a double. *)
Lemma binary_round_aux_valid (sx : bool) (m : positive) (e : Z) (l : location) :
e <= fexp prec emax (Zpos (digits2_pos m) + e) ->
valid (binary_round_aux prec emax sx (Zpos m) e l) = true.
Proof.
intros Hpre. unfold binary_round_aux.
pose proof (shr_fexp_canonical m e l Hpre) as H1.
destruct (shr_fexp prec emax (Zpos m) e l) as [mrs' e'].
destruct H1 as (Hnn & Hz & Hc).
set (m1 := round_nearest_even (shr_m mrs') (loc_of_shr_record mrs')).
assert (Hm1 : m1 = shr_m mrs' \/ m1 = shr_m mrs' + 1).
{ subst m1. unfold round_nearest_even.
  destruct (loc_of_shr_record mrs') as [| []]; auto.
  destruct (Z.even (shr_m mrs')); auto. }
destruct m1 as [| p1 | p1] eqn:Ep; try lia.
{ pose proof (shr_fexp_zero e' loc_Exact) as H0.
  destruct (shr_fexp prec emax 0 e' loc_Exact) as [mrs'' e''].
  cbn [fst] in H0. now rewrite H0. }
assert (Hpre1 : e' <= fexp prec emax (Zpos (digits2_pos p1) + e')).
{ destruct (Z.eq_dec (shr_m mrs') 0) as [H0 | Hne].
  - rewrite (Hz H0). unfold fexp. lia.
  - assert (Hpos : 0 < shr_m mrs') by lia. specialize (Hc Hpos).
    destruct (shr_m mrs') as [| q | q] eqn:Eq; try lia.
    cbn [Zdigits2] in Hc. rewrite <- Hc at 1. apply fexp_le.
    destruct Hm1 as [Hm1 | Hm1].
    + injection Hm1 as ->. lia.
    + assert (p1 = (q + 1)%positive) by lia. subst p1.
      pose proof (digits2_succ_le q). lia. }
pose proof (shr_fexp_canonical p1 e' loc_Exact Hpre1) as H2.
destruct (shr_fexp prec emax (Zpos p1) e' loc_Exact) as [mrs'' e''].
destruct H2 as (Hnn2 & _ & Hc2).
destruct (shr_m mrs'') as [| p2 | p2] eqn:E2; try reflexivity; try lia.
destruct (Z.leb_spec e'' (emax - prec)) as [Hle | Hgt]; [| reflexivity].
unfold valid, valid_binary, bounded, canonical_mantissa.
apply andb_true_iff. split; [apply Z.eqb_eq | apply Z.leb_le].
- apply Hc2. lia.
- exact Hle.
Qed.

Lemma iter_xO (m : positive) (n : positive) :
Zpos (Pos.iter xO m n) = Zpos m * 2 ^ Zpos n.
Proof.
induction n as [| n IH] using Pos.peano_ind.
- cbn. lia.
- rewrite Pos.iter_succ, Pos2Z.inj_xO, IH, Pos2Z.inj_succ, Z.pow_succ_r by lia. lia.
Qed.

Lemma digits2_shl (m : positive) (n : positive) :
Zpos (digits2_pos (Pos.iter xO m n)) = Zpos (digits2_pos m) + Zpos n.
Proof.
pose proof (digits2_bounds m) as [Hlo Hhi].
apply digits2_unique; [lia |]. rewrite iter_xO.
assert (Hp : 0 < 2 ^ Zpos n) by (apply Z.pow_pos_nonneg; lia).
replace (Zpos (digits2_pos m) + Zpos n - 1) with (Zpos (digits2_pos m) - 1 + Zpos n) by lia.
rewrite !Z.pow_add_r by lia. nia.
Qed.

Lemma binary_round_valid (sx : bool) (m : positive) (e : Z) :
valid (binary_round prec emax sx m e) = true.
Proof.
unfold binary_round, shl_align.
set (d := Zpos (digits2_pos m)).
destruct (fexp prec emax (d + e) - e) as [| n | n] eqn:Hn.
- apply binary_round_aux_valid. fold d. lia.
- apply binary_round_aux_valid. fold d. lia.
- apply binary_round_aux_valid. rewrite digits2_shl. fold d.
  replace (d + Zpos n + fexp prec emax (d + e)) with (d + e) by lia. lia.
Qed.

(** The nearest double of an integer is a double. *)
Lemma lit_valid (n : Z) : valid (lit n) = true.
Proof.
unfold lit, binary_normalize.
destruct n; [reflexivity | apply binary_round_valid | apply binary_round_valid].
Qed.

(** The square root of a number of [d] digits has [(d + 1) / 2] digits. *)
Lemma digits2_sqrt (m q : positive) :
Z.sqrt (Zpos m) = Zpos q ->
Zpos (digits2_pos q) = (Zpos (digits2_pos m) + 1) / 2.
Proof.
intros Hq. pose proof (digits2_bounds m) as [Hlo Hhi].
set (d := Zpos (digits2_pos m)) in *.
assert (Hd : 1 <= d) by (subst d; lia).
set (k := (d + 1) / 2).
assert (Hk : 2 * k = d + 1 \/ 2 * k = d) by (subst k; Z.div_mod_to_equations; lia).
assert (Hk1 : 1 <= k) by lia.
pose proof (Z.sqrt_spec (Zpos m) ltac:(lia)) as [Hs1 Hs2]. rewrite Hq in Hs1, Hs2.
apply digits2_unique; [lia |].
assert (Hp : 0 < 2 ^ (k - 1)) by (apply Z.pow_pos_nonneg; lia).
assert (Hpk : 2 ^ k = 2 * 2 ^ (k - 1)).
{ replace k with (Z.succ (k - 1)) at 1 by lia. apply Z.pow_succ_r. lia. }
assert (Hsq : 2 ^ (k - 1) * 2 ^ (k - 1) = 2 ^ (2 * k - 2))
  by (rewrite <- Z.pow_add_r by lia; f_equal; lia).
assert (Hsq' : 2 ^ k * 2 ^ k = 2 ^ (2 * k))
  by (rewrite <- Z.pow_add_r by lia; f_equal; lia).
split.
- (* 2^(k-1) <= q, since (2^(k-1))^2 = 2^(2k-2) <= 2^(d-1) <= m < (q+1)^2 *)
  assert (H1 : 2 ^ (2 * k - 2) <= 2 ^ (d - 1)) by (apply Z.pow_le_mono_r; lia).
  destruct (Z_lt_le_dec (Zpos q) (2 ^ (k - 1))) as [Hlt | Hge]; [| exact Hge].
  exfalso. assert (Z.succ (Zpos q) <= 2 ^ (k - 1)) by lia. nia.
- (* q < 2^k, since q^2 <= m < 2^d <= 2^(2k) *)
  assert (H1 : 2 ^ d <= 2 ^ (2 * k)) by (apply Z.pow_le_mono_r; lia).
  destruct (Z_lt_le_dec (Zpos q) (2 ^ k)) as [Hlt | Hge]; [exact Hlt |].
  exfalso. nia.
Qed.

Lemma sqrt_core_canonical (m : positive) (e : Z) :
exists (q : positive) (e' : Z) (l : location),
  SFsqrt_core_binary prec emax (Zpos m) e = (Zpos q, e', l) /\
  e' <= fexp prec emax (Zpos (digits2_pos q) + e').
Proof.
unfold SFsqrt_core_binary. cbn [Zdigits2].
set (d := Zpos (digits2_pos m)).
set (e' := Z.min (fexp prec emax (Z.div2 (d + e + 1))) (Z.div2 e)).
assert (He' : 2 * e' <= e) by (subst e'; rewrite !Z.div2_div; Z.div_mod_to_equations; lia).
set (s := e - 2 * e').
set (m' := match s with Z0 => Zpos m | Zpos _ => Z.shiftl (Zpos m) s | Zneg _ => 0 end).
assert (Hm' : exists p : positive, m' = Zpos p /\ Zpos (digits2_pos p) = d + s).
{ subst m'. destruct s as [| n | n] eqn:Es; try lia.
  - exists m. split; [reflexivity | subst d; lia].
  - exists (Pos.iter xO m n). rewrite Z.shiftl_mul_pow2 by lia.
    split; [now rewrite iter_xO | apply digits2_shl]. }
destruct Hm' as (p & Hp & Hdp). rewrite Hp.
pose proof (Z.sqrtrem_sqrt (Zpos p)) as Hsq.
pose proof (Z.sqrt_spec (Zpos p) ltac:(lia)) as Hspec.
destruct (Z.sqrtrem (Zpos p)) as [q r]. cbn [fst] in Hsq. subst q.
assert (Hq : 1 <= Z.sqrt (Zpos p)).
{ pose proof (Z.sqrt_nonneg (Zpos p)).
  destruct (Z.eq_dec (Z.sqrt (Zpos p)) 0) as [H0 | H0]; [| lia].
  rewrite H0 in Hspec. cbn in Hspec. lia. }
destruct (Z.sqrt (Zpos p)) as [| q | q] eqn:Eq; try lia.
eexists q, e', _. split; [reflexivity |].
rewrite (digits2_sqrt p q Eq), Hdp.
assert (Hdiv : (d + s + 1) / 2 + e' = Z.div2 (d + e + 1)).
{ subst s. rewrite Z.div2_div. Z.div_mod_to_equations. lia. }
rewrite Hdiv. subst e'. lia.
Qed.

(** The magnitude is a double. *)
Lemma hypot_valid (x y : float) : valid (hypot x y) = true.
Proof.
unfold hypot.
destruct (is_inf x || is_inf y); [reflexivity |].
destruct (is_nan x || is_nan y); [reflexivity |].
destruct (sum_squares x y) as [m e].
destruct m as [| m | m]; try reflexivity.
destruct (sqrt_core_canonical m e) as (q & e' & l & -> & Hpre).
now apply binary_round_aux_valid.
Qed.

End Float64Facts.

(** ** Attributes of a [Vector2d] instance *)

Module Vector2dObjectFacts.
Import Vector2dObject.

(** Assigning to a private name from inside the class stores it. *)
Lemma setattr_private (self : instance) (value : pyval) :
setattr self (mangle "__x") value = Ok (<[mangle "__x" := value]> self) /\
setattr self (mangle "__y") value = Ok (<[mangle "__y" := value]> self).
Proof. split; reflexivity. Qed.

(** What the constructor leaves in the instance dictionary. *)
Lemma init_ok (a b : number) (self : instance) :
__init__ a b = Ok self ->
exists fx fy : Float64.float,
  float_ a = Ok fx /\ float_ b = Ok fy /\
  self = <[mangle "__y" := PyNum (NFloat fy)]>
           (<[mangle "__x" := PyNum (NFloat fx)]> ∅).
Proof.
unfold __init__. intros H.
destruct (float_ a) as [fx | e] eqn:Ha; [| discriminate].
destruct (float_ b) as [fy | e] eqn:Hb; [| discriminate].
cbn in H. rewrite (proj1 (setattr_private _ _)) in H. cbn in H.
rewrite (proj2 (setattr_private _ _)) in H.
exists fx, fy. repeat split. congruence.
Qed.

(** The constructor fails only when a coercion fails. *)
Lemma init_total (a b : number) (fx fy : Float64.float) :
float_ a = Ok fx -> float_ b = Ok fy ->
exists self : instance, __init__ a b = Ok self.
Proof.
intros Ha Hb. unfold __init__. rewrite Ha, Hb. cbn.
rewrite (proj1 (setattr_private _ _)). cbn.
rewrite (proj2 (setattr_private _ _)). eauto.
Qed.

(** What the constructor stores is a double, provided an argument that
  is already a float is one. *)
Lemma coerced_is_double (a : number) (f : Float64.float) :
float_ a = Ok f ->
(forall g : Float64.float, a = NFloat g -> Float64.valid g = true) ->
Float64.valid f = true.
Proof.
destruct a as [n | b | g]; cbn.
- unfold Float64.of_int. fold (Float64.lit n).
  pose proof (Float64Facts.lit_valid n) as Hv.
  destruct (Float64.lit n); intros [= <-] _; exact Hv.
- intros [= <-] _. apply Float64Facts.lit_valid.
- intros [= <-] H. now apply H.
Qed.

(** The private attributes themselves are not protected: the mangled
  name can be assigned from anywhere. *)
Lemma private_name_is_writable (self : instance) (value : pyval) :
assign self "_Vector2d__x" value = (<["_Vector2d__x" := value]> self, None).
Proof. reflexivity. Qed.

(** C4.  A vector built from two numbers holds their coercions to float
  behind the properties [x] and [y] (doubles, as far as the float
  arguments are), and assigning to [x] or to [y] raises
  [AttributeError] and leaves the instance as it was, whatever the
  value assigned. *)
Theorem components_read_only (a b : number) (self : instance) :
__init__ a b = Ok self ->
(exists fx fy : Float64.float,
    float_ a = Ok fx /\ float_ b = Ok fy /\
    x self = Ok (PyNum (NFloat fx)) /\ y self = Ok (PyNum (NFloat fy)) /\
    ((forall g, a = NFloat g -> Float64.valid g = true) ->
     Float64.valid fx = true) /\
    ((forall g, b = NFloat g -> Float64.valid g = true) ->
     Float64.valid fy = true)) /\
(forall value : pyval,
    assign self "x" value = (self, Some AttributeError) /\
    assign self "y" value = (self, Some AttributeError)).
Proof.
intros H. split.
- destruct (init_ok a b self H) as (fx & fy & Ha & Hb & ->).
  exists fx, fy. split; [exact Ha |]. split; [exact Hb |].
  split; [reflexivity |]. split; [reflexivity |].
  split; [exact (coerced_is_double a fx Ha) | exact (coerced_is_double b fy Hb)].
- intros value. split; reflexivity.
Qed.

(** The doctest: [v1 = Vector2d(3, 4)], [v1.x] is [3.0], and
  [v1.x = 123] raises [AttributeError]. *)
Lemma components_read_only_witness :
__init__ (NInt 3) (NInt 4) = Ok Sample.v34_instance /\
x Sample.v34_instance = Ok (PyNum (NFloat (Float64.lit 3))) /\
assign Sample.v34_instance "x" (PyNum (NInt 123))
  = (Sample.v34_instance, Some AttributeError) /\
assign Sample.v34_instance "y" (PyNum (NInt 123))
  = (Sample.v34_instance, Some AttributeError).
Proof.
assert (H : __init__ (NInt 3) (NInt 4) = Ok Sample.v34_instance)
  by (vm_compute; reflexivity).
split; [exact H |]. split; [vm_compute; reflexivity |].
exact (proj2 (components_read_only (NInt 3) (NInt 4) Sample.v34_instance H)
             (PyNum (NInt 123))).
Defined.

End Vector2dObjectFacts.

(** ** The protocol methods of [Vector2d] *)

Module Vector2dFacts.
Import Float64 Float64Facts Vector2d.

(** Called on two floats the constructor keeps them. *)
Lemma new_floats (a b : float) : new (NFloat a) (NFloat b) = Ok (mk a b).
Proof. reflexivity. Qed.

(** Sixteen bytes are cast to two items. *)
Lemma cast_two (o : byteorder) (p q : list Byte.byte) :
length p = 8%nat -> length q = 8%nat ->
cast o (p ++ q) = Ok [unpack o p; unpack o q].
Proof.
intros Hp Hq.
destruct p as [| p0 [| p1 [| p2 [| p3 [| p4 [| p5 [| p6 [| p7 [| ? ?]]]]]]]]];
  try discriminate.
destruct q as [| q0 [| q1 [| q2 [| q3 [| q4 [| q5 [| q6 [| q7 [| ? ?]]]]]]]]];
  try discriminate.
reflexivity.
Qed.

(** A length that is not a multiple of eight is refused. *)
Lemma cast_odd_length (o : byteorder) (octets : list Byte.byte) :
(length octets mod 8 <> 0)%nat -> cast o octets = Raise TypeError.
Proof.
intros H. unfold cast, itemsize.
destruct (Nat.eqb_spec (length octets mod 8) 0); [contradiction | reflexivity].
Qed.

(** Whatever the bytes, the vector read from them holds two doubles. *)
Lemma frombytes_valid (o : byteorder) (octets : list Byte.byte) (v : t) :
frombytes o octets = Ok v -> valid (x v) = true /\ valid (y v) = true.
Proof.
unfold frombytes, cast.
destruct (length octets mod itemsize =? 0)%nat; [| discriminate].
cbn [mbind Result_bind].
assert (H : Forall (fun f => valid f = true)
                   (map (unpack o) (items_of (length octets) octets))).
{ apply Forall_forall. intros f Hf. apply list_elem_of_In, in_map_iff in Hf.
  destruct Hf as (l & <- & _). apply unpack_valid. }
destruct (map (unpack o) (items_of (length octets) octets))
  as [| a [| b [| c l]]]; try discriminate.
rewrite new_floats. intros [= <-]. cbn.
inversion H as [| ? ? Ha H']. inversion H' as [| ? ? Hb _]. now split.
Qed.

Lemma frombytes_bytes_eq (o : byteorder) (v : t) :
valid (x v) = true -> valid (y v) = true ->
frombytes o (__bytes__ o v) = Ok v.
Proof.
intros Hx Hy. unfold frombytes, __bytes__.
rewrite cast_two by apply length_pack.
cbn [mbind Result_bind].
rewrite !unpack_pack by assumption.
rewrite new_floats. now destruct v.
Qed.

Lemma eq_self (v : t) :
is_nan (x v) = false -> is_nan (y v) = false -> __eq__ v (Vec v) = Ok true.
Proof.
intros Hx Hy. unfold __eq__. cbn. unfold num_eqb.
now rewrite !eqb_refl.
Qed.

(** The restriction to components other than NaN is needed: what the
  bytes of a vector with a NaN component read back as is not equal to
  it. *)
Lemma frombytes_bytes_nan (o : byteorder) (f : float) :
valid f = true ->
exists v' : t,
  frombytes o (__bytes__ o (mk S754_nan f)) = Ok v' /\
  __eq__ v' (Vec (mk S754_nan f)) = Ok false.
Proof.
intros Hf. exists (mk S754_nan f).
split; [now apply frombytes_bytes_eq | reflexivity].
Qed.

(** C2.  For a vector whose components are doubles other than NaN, in
  either byte order: the serialization is the eight bytes of [x]
  followed by the eight bytes of [y] and nothing else, and
  [frombytes] applied to it returns a vector equal to the original. *)
Theorem frombytes_bytes (o : byteorder) (v : t) :
valid (x v) = true -> valid (y v) = true ->
is_nan (x v) = false -> is_nan (y v) = false ->
__bytes__ o v = pack o (x v) ++ pack o (y v) /\
length (pack o (x v)) = 8%nat /\ length (pack o (y v)) = 8%nat /\
exists v' : t,
  frombytes o (__bytes__ o v) = Ok v' /\ __eq__ v' (Vec v) = Ok true.
Proof.
intros Hx Hy Nx Ny. split; [reflexivity |].
split; [apply length_pack |]. split; [apply length_pack |].
exists v. split; [now apply frombytes_bytes_eq | now apply eq_self].
Qed.

(** The doctest: the sixteen bytes of [Vector2d(3, 4)] on a
  little-endian machine, and their way back. *)
Lemma frombytes_bytes_witness :
__bytes__ Little Sample.v34 =
  [Byte.x00; Byte.x00; Byte.x00; Byte.x00; Byte.x00; Byte.x00; Byte.x08; Byte.x40;
   Byte.x00; Byte.x00; Byte.x00; Byte.x00; Byte.x00; Byte.x00; Byte.x10; Byte.x40] /\
exists v' : t,
  frombytes Little (__bytes__ Little Sample.v34) = Ok v' /\
  __eq__ v' (Vec Sample.v34) = Ok true.
Proof.
split; [vm_compute; reflexivity |].
apply (frombytes_bytes Little Sample.v34); vm_compute; reflexivity.
Defined.

Lemma eq_vec_inv (v1 v2 : t) :
__eq__ v1 (Vec v2) = Ok true ->
eqb (x v1) (x v2) = true /\ eqb (y v1) (y v2) = true.
Proof.
unfold __eq__. cbn. unfold num_eqb. intros H. injection H as H.
rewrite andb_true_r in H. now apply andb_true_iff in H.
Qed.

(** Items that the comparison takes for equal hash alike: one object
  has one hash, and floats that compare equal hash alike. *)
Lemma item_eq_hash (h : Vector2dHeap.heap) (a b : nat) :
Vector2dHeap.item_eq h a b = true -> hash (h a) = hash (h b).
Proof.
unfold Vector2dHeap.item_eq, Vector2dHeap.is_. intros H.
apply orb_true_iff in H as [H | H].
- apply Nat.eqb_eq in H. now subst.
- now apply eqb_hash.
Qed.

(** Vectors that are equal by value are equal, wherever their
  components lie. *)
Lemma eq_of_value (h : Vector2dHeap.heap) (v1 v2 : Vector2dHeap.t) :
__eq__ (Vector2dHeap.contents h v1) (Vec (Vector2dHeap.contents h v2)) = Ok true ->
Vector2dHeap.__eq__ h v1 v2 = true.
Proof.
intros H. apply eq_vec_inv in H as [Hx Hy]. cbn in Hx, Hy.
unfold Vector2dHeap.__eq__, Vector2dHeap.item_eq.
now rewrite Hx, Hy, !orb_true_r.
Qed.

(** Two instances that share no float object are compared by value. *)
Lemma eq_by_value (h : Vector2dHeap.heap) (v1 v2 : Vector2dHeap.t) :
Vector2dHeap.x v1 <> Vector2dHeap.x v2 ->
Vector2dHeap.y v1 <> Vector2dHeap.y v2 ->
__eq__ (Vector2dHeap.contents h v1) (Vec (Vector2dHeap.contents h v2))
  = Ok (Vector2dHeap.__eq__ h v1 v2).
Proof.
intros Hx Hy. apply Nat.eqb_neq in Hx, Hy.
unfold __eq__, Vector2dHeap.__eq__, Vector2dHeap.item_eq, Vector2dHeap.is_.
cbn. unfold num_eqb. now rewrite Hx, Hy, andb_true_r.
Qed.

(** By value alone: vectors of equal floats hash alike. *)
Lemma hash_eq_by_value (v1 v2 : t) :
__eq__ v1 (Vec v2) = Ok true -> hash_ v1 = hash_ v2 /\ __hash__ v1 = __hash__ v2.
Proof.
intros H. apply eq_vec_inv in H as [Hx Hy].
apply eqb_hash in Hx, Hy.
assert (Hh : __hash__ v1 = __hash__ v2) by (unfold __hash__; now rewrite Hx, Hy).
split; [unfold hash_; now rewrite Hh | exact Hh].
Qed.

(** C3.  Two vectors that compare equal have the same hash, both as
  [__hash__] returns it and as the builtin [hash] reports it, and
  [__hash__] is the exclusive or of the hashes of the two
  components.  Equality is the comparison of the two tuples of
  components, each pair of items being the same object or two floats
  that compare equal; this covers [v == v] and two vectors that hold
  one NaN object. *)
Theorem hash_consistent_with_eq (h : Vector2dHeap.heap) (v1 v2 : Vector2dHeap.t) :
Vector2dHeap.__eq__ h v1 v2 = true ->
hash_ (Vector2dHeap.contents h v1) = hash_ (Vector2dHeap.contents h v2) /\
__hash__ (Vector2dHeap.contents h v1) = __hash__ (Vector2dHeap.contents h v2) /\
__hash__ (Vector2dHeap.contents h v1)
  = Z.lxor (hash (h (Vector2dHeap.x v1))) (hash (h (Vector2dHeap.y v1))) /\
__hash__ (Vector2dHeap.contents h v2)
  = Z.lxor (hash (h (Vector2dHeap.x v2))) (hash (h (Vector2dHeap.y v2))).
Proof.
intros H. apply andb_true_iff in H as [Hx Hy].
apply item_eq_hash in Hx, Hy.
assert (Hh : __hash__ (Vector2dHeap.contents h v1) = __hash__ (Vector2dHeap.contents h v2))
  by (unfold __hash__; cbn [Vector2dHeap.contents x y]; now rewrite Hx, Hy).
split; [unfold hash_; now rewrite Hh |].
split; [exact Hh |]. split; reflexivity.
Qed.

(** Two vectors that hold one NaN object, and [0.0] and [-0.0] in two
  objects: they are equal, which the comparison by value does not
  see, and they hash alike. *)
Lemma hash_consistent_with_eq_witness :
Vector2dHeap.__eq__ Sample.heap4 (Vector2dHeap.mk 0 1) (Vector2dHeap.mk 0 2) = true /\
__eq__ (Vector2dHeap.contents Sample.heap4 (Vector2dHeap.mk 0 1))
       (Vec (Vector2dHeap.contents Sample.heap4 (Vector2dHeap.mk 0 2))) = Ok false /\
hash_ (Vector2dHeap.contents Sample.heap4 (Vector2dHeap.mk 0 1))
  = hash_ (Vector2dHeap.contents Sample.heap4 (Vector2dHeap.mk 0 2)).
Proof.
assert (H : Vector2dHeap.__eq__ Sample.heap4 (Vector2dHeap.mk 0 1) (Vector2dHeap.mk 0 2) = true)
  by (vm_compute; reflexivity).
split; [exact H |]. split; [vm_compute; reflexivity |].
exact (proj1 (hash_consistent_with_eq Sample.heap4 _ _ H)).
Defined.

(** The doctest: [hash(Vector2d(3, 4))] is [7], and with
  [Vector2d(3.1, 4.2)] the two hashes are
  [(7, 384307168202284039)]. *)
Example hash_doctest :
hash_ Sample.v34 = 7 /\
hash_ (mk (SFdiv prec emax (lit 31) (lit 10)) (SFdiv prec emax (lit 42) (lit 10)))
  = 384307168202284039.
Proof. split; vm_compute; reflexivity. Qed.

(** The builtin differs from the method on one value: [-1] is reserved,
  as for [Vector2d(1, -2)]. *)
Example hash_minus_one :
__hash__ (mk (lit 1) (lit (-2))) = -1 /\ hash_ (mk (lit 1) (lit (-2))) = -2.
Proof. split; vm_compute; reflexivity. Qed.

(** C5.  [abs(v)] is the Euclidean norm of the two components;
  [bool(v)] is false exactly when that magnitude is zero, which for
  doubles happens exactly when both components are zero;
  [Vector2d(3, 4)] has magnitude [5.0] and is true, [Vector2d(0, 0)]
  is false. *)
Theorem bool_false_iff_magnitude_zero :
(forall v : t, __abs__ v = hypot (x v) (y v)) /\
(forall v : t, __bool__ v = false <-> eqb (__abs__ v) (lit 0) = true) /\
(forall v : t, valid (x v) = true -> valid (y v) = true ->
   (__bool__ v = false <-> eqb (x v) (lit 0) = true /\ eqb (y v) (lit 0) = true)) /\
new (NInt 3) (NInt 4) = Ok Sample.v34 /\
__abs__ Sample.v34 = lit 5 /\ __bool__ Sample.v34 = true /\
new (NInt 0) (NInt 0) = Ok Sample.v00 /\ __bool__ Sample.v00 = false.
Proof.
split; [reflexivity |].
split.
{ intros v. unfold __bool__, truth. change (lit 0) with (S754_zero false).
  rewrite eqb_zero. destruct (is_zero (__abs__ v)); cbn; intuition congruence. }
split.
{ intros v Hx Hy. unfold __bool__, truth, __abs__.
  change (lit 0) with (S754_zero false). rewrite !eqb_zero.
  rewrite hypot_zero_iff by assumption.
  destruct (is_zero (x v)), (is_zero (y v)); cbn; intuition congruence. }
repeat split; vm_compute; reflexivity.
Qed.

(** The magnitude of any vector is a double. *)
Lemma abs_valid (v : t) : valid (__abs__ v) = true.
Proof. apply hypot_valid. Qed.

(** The smallest vectors are true as well: the magnitude of a
  subnormal does not round to zero. *)
Lemma bool_false_iff_magnitude_zero_witness :
__bool__ (mk (S754_finite false 1 (-1074)) (lit 0)) = false <->
eqb (S754_finite false 1 (-1074)) (lit 0) = true /\ eqb (lit 0) (lit 0) = true.
Proof.
apply (proj1 (proj2 (proj2 bool_false_iff_magnitude_zero))
         (mk (S754_finite false 1 (-1074)) (lit 0)));
  vm_compute; reflexivity.
Defined.

Lemma eq_items (v : t) (items : list pyval) (other : pyobj) :
tuple_ other = Ok items ->
__eq__ v other = Ok (tuple_eqb (__iter__ v) items).
Proof. unfold __eq__. now intros ->. Qed.

(** An operand that cannot be iterated makes [==] raise. *)
Lemma eq_not_iterable (v : t) (n : number) :
__eq__ v (Obj (PyNum n)) = Raise TypeError.
Proof. reflexivity. Qed.

(** C10.  A vector compares equal to any tuple or list of two items
  that equal its components in order; the operand need not be a
  vector. *)
Theorem eq_two_item_iterable (v : t) (a b : pyval) :
py_eqb (PyNum (NFloat (x v))) a = true ->
py_eqb (PyNum (NFloat (y v))) b = true ->
__eq__ v (Tuple [a; b]) = Ok true /\ __eq__ v (PyList [a; b]) = Ok true.
Proof.
intros Ha Hb. unfold __eq__. cbn [tuple_ mbind Result_bind __iter__ tuple_eqb].
rewrite Ha, Hb. split; reflexivity.
Qed.

(** [Vector2d(3, 4) == (3.0, 4.0)], and [== [3.0, 4.0]]. *)
Lemma eq_two_item_iterable_witness :
new (NInt 3) (NInt 4) = Ok Sample.v34 /\
__eq__ Sample.v34 (Tuple [PyNum (NFloat (lit 3)); PyNum (NFloat (lit 4))]) = Ok true /\
__eq__ Sample.v34 (PyList [PyNum (NFloat (lit 3)); PyNum (NFloat (lit 4))]) = Ok true.
Proof.
split; [vm_compute; reflexivity |].
apply (eq_two_item_iterable Sample.v34); vm_compute; reflexivity.
Defined.

(** The items may be [int]s: [Vector2d(3, 4) == (3, 4)]. *)
Example eq_int_tuple :
__eq__ Sample.v34 (Tuple [PyNum (NInt 3); PyNum (NInt 4)]) = Ok true.
Proof. vm_compute; reflexivity. Qed.

End Vector2dFacts.

(** ** The representation of a [Vector2d] and its evaluation *)

Module Vector2dTextFacts.
Import Float64 Float64Facts Vector2d Vector2dText.

Lemma app_String (c : ascii) (s u : string) : String c s +:+ u = String c (s +:+ u).
Proof. reflexivity. Qed.

(** An argument ends where the next delimiter stands. *)
Lemma span_app (s rest : string) (c : ascii) :
no_delimiter s = true -> is_delimiter c = true ->
span (s +:+ String c rest) = (s, String c rest).
Proof.
intros Hs Hc. induction s as [| d s IH].
- change (span (String c rest) = (EmptyString, String c rest)).
  cbn [span]. now rewrite Hc.
- cbn [no_delimiter] in Hs. apply andb_true_iff in Hs as [Hd Hs].
  rewrite app_String. cbn [span].
  apply negb_true_iff in Hd. rewrite Hd, (IH Hs). reflexivity.
Qed.

Lemma skip_spaces_argument (s rest : string) (c : ascii) :
one_argument s = true -> is_delimiter c = true ->
skip_spaces (" " +:+ s +:+ String c rest) = s +:+ String c rest.
Proof.
intros Hs Hc. unfold one_argument in Hs.
apply andb_true_iff in Hs as [_ Hs].
change (" " +:+ s +:+ String c rest) with (String " " (s +:+ String c rest)).
cbn [skip_spaces]. change (Ascii.eqb " " " ") with true. cbv iota.
destruct s as [| d s].
- change (EmptyString +:+ String c rest) with (String c rest).
  cbn [skip_spaces].
  destruct (Ascii.eqb_spec c " ") as [-> | _]; [discriminate | reflexivity].
- rewrite app_String. cbn [skip_spaces].
  apply negb_true_iff in Hs. now rewrite Hs.
Qed.

(** Evaluating the text of a call parses the two arguments, evaluates
  them in order and calls the class. *)
Lemma eval_call (float_literal : string -> option float) (a b : string) :
one_argument a = true -> one_argument b = true ->
eval_ float_literal ("Vector2d(" +:+ a +:+ ", " +:+ b +:+ ")") =
  (ea ← parse_arg float_literal a;
   eb ← parse_arg float_literal b;
   fa ← eval_expr ea;
   fb ← eval_expr eb;
   new (NFloat fa) (NFloat fb)).
Proof.
intros Ha Hb. unfold eval_.
change (strip_prefix "Vector2d(" ("Vector2d(" +:+ a +:+ ", " +:+ b +:+ ")"))
  with (Some (a +:+ ", " +:+ b +:+ ")")).
change (a +:+ ", " +:+ b +:+ ")")
  with (a +:+ String "," (" " +:+ b +:+ String ")" EmptyString)).
cbv beta iota.
rewrite span_app; [| now apply andb_true_iff in Ha as [Ha _] | reflexivity].
rewrite skip_spaces_argument by (assumption || reflexivity).
rewrite span_app; [| now apply andb_true_iff in Hb as [Hb _] | reflexivity].
reflexivity.
Qed.

(** An infinity or a NaN never reads back: its text is a bare name. *)
Lemma non_finite_reads_back_never (repr_finite : float -> string)
    (float_literal : string -> option float) (f : float) :
is_finite f = false -> ~ reads_back repr_finite float_literal f.
Proof.
intros Hf (_ & e & g & Hp & He & _).
destruct f as [| [] | |]; try discriminate; cbn in Hp;
  injection Hp as <-; discriminate.
Qed.

(** Evaluation undoes the representation when both components read
  back. *)
Lemma eval_repr (repr_finite : float -> string)
    (float_literal : string -> option float) (v : t) :
reads_back repr_finite float_literal (x v) ->
reads_back repr_finite float_literal (y v) ->
exists v' : t,
  eval_ float_literal (__repr__ repr_finite v) = Ok v' /\
  __eq__ v' (Vec v) = Ok true.
Proof.
intros [Ax (ex & gx & Px & Ex & Qx)] [Ay (ey & gy & Py & Ey & Qy)].
exists (mk gx gy). split.
- unfold __repr__. rewrite eval_call by assumption.
  rewrite Px, Py. cbn [mbind Result_bind]. rewrite Ex, Ey. reflexivity.
- unfold __eq__. cbn. unfold num_eqb. now rewrite Qx, Qy.
Qed.

(** The text of an infinity or of a NaN is an argument the parser
  accepts, a bare name, and evaluating it raises [NameError]. *)
Lemma non_finite_text (repr_finite : float -> string)
    (float_literal : string -> option float) (f : float) :
is_finite f = false ->
In (float_repr repr_finite f) ["inf"; "-inf"; "nan"] /\
one_argument (float_repr repr_finite f) = true /\
exists e : expr,
  parse_arg float_literal (float_repr repr_finite f) = Ok e /\
  eval_expr e = Raise NameError.
Proof.
destruct f as [| [] | |]; try discriminate; intros _; cbn [float_repr].
- split; [cbn; auto |]. split; [reflexivity |].
  exists (ENeg (EName "inf")). split; reflexivity.
- split; [cbn; auto |]. split; [reflexivity |].
  exists (EName "inf"). split; reflexivity.
- split; [cbn; auto |]. split; [reflexivity |].
  exists (EName "nan"). split; reflexivity.
Qed.

(** Evaluating the representation of a vector with an infinite or NaN
  component, the first or the second, raises [NameError]. *)
Lemma eval_repr_non_finite (repr_finite : float -> string)
    (float_literal : string -> option float) (v : t) :
(is_finite (x v) = true -> reads_back repr_finite float_literal (x v)) ->
(is_finite (y v) = true -> reads_back repr_finite float_literal (y v)) ->
is_finite (x v) = false \/ is_finite (y v) = false ->
eval_ float_literal (__repr__ repr_finite v) = Raise NameError.
Proof.
intros Hx Hy Hn. unfold __repr__.
destruct (is_finite (x v)) eqn:Fx.
- destruct Hn as [Hn | Hn]; [discriminate |].
  destruct (Hx eq_refl) as [Ax (ex & gx & Px & Ex & _)].
  destruct (non_finite_text repr_finite float_literal (y v) Hn)
    as (_ & Ay & ey & Py & Ey).
  rewrite eval_call by assumption.
  rewrite Px, Py. cbn [mbind Result_bind]. now rewrite Ex, Ey.
- destruct (non_finite_text repr_finite float_literal (x v) Fx)
    as (_ & Ax & ex & Px & Ex).
  assert (Hb : one_argument (float_repr repr_finite (y v)) = true /\
               exists ey, parse_arg float_literal (float_repr repr_finite (y v)) = Ok ey).
  { destruct (is_finite (y v)) eqn:Fy.
    - destruct (Hy eq_refl) as [Ay (ey & gy & Py & _)]. eauto.
    - destruct (non_finite_text repr_finite float_literal (y v) Fy)
        as (_ & Ay & ey & Py & _). eauto. }
  destruct Hb as [Ay [ey Py]].
  rewrite eval_call by assumption.
  rewrite Px, Py. cbn [mbind Result_bind]. now rewrite Ex.
Qed.

(** C7, amended.  The representation is [Vector2d(x, y)] with the two
  components printed as floats.  When the printed text of every
  finite component reads back as a float equal to it (which the
  runtime promises of finite floats): if both components are finite,
  evaluating the representation builds a vector equal to the
  original; if a component, the first or the second, is an infinity
  or a NaN, its text is one of the bare names [inf], [-inf] and [nan],
  which the module does not bind, and evaluating the representation
  raises [NameError]. *)
Theorem repr_evaluates_back (repr_finite : float -> string)
      (float_literal : string -> option float) (v : t) :
(is_finite (x v) = true -> reads_back repr_finite float_literal (x v)) ->
(is_finite (y v) = true -> reads_back repr_finite float_literal (y v)) ->
__repr__ repr_finite v =
  "Vector2d(" +:+ float_repr repr_finite (x v) +:+ ", "
              +:+ float_repr repr_finite (y v) +:+ ")" /\
(is_finite (x v) = true -> is_finite (y v) = true ->
 exists v' : t,
   eval_ float_literal (__repr__ repr_finite v) = Ok v' /\
   __eq__ v' (Vec v) = Ok true) /\
(forall f : float, (f = x v \/ f = y v) -> is_finite f = false ->
   In (float_repr repr_finite f) ["inf"; "-inf"; "nan"]) /\
(is_finite (x v) = false \/ is_finite (y v) = false ->
 eval_ float_literal (__repr__ repr_finite v) = Raise NameError).
Proof.
intros Hx Hy. split; [unfold __repr__; reflexivity |].
split; [| split].
- intros Fx Fy.
  destruct (eval_repr repr_finite float_literal v (Hx Fx) (Hy Fy)) as (v' & He & Hq).
  exists v'. split; assumption.
- intros f _ Hf.
  exact (proj1 (non_finite_text repr_finite float_literal f Hf)).
- apply eval_repr_non_finite; assumption.
Qed.

Section FiniteFloats.
(** A printer and a reader of floats that keep the runtime's promise:
the text of a finite double reads back as that double. *)
Variable repr_finite : float -> string.
Variable float_literal : string -> option float.
Hypothesis finite_reads_back :
forall f : float, valid f = true -> is_finite f = true ->
                reads_back repr_finite float_literal f.

(** With such a runtime, every vector of two finite doubles evaluates
back from its representation. *)
Corollary repr_evaluates_back_finite (v : t) :
valid (x v) = true -> valid (y v) = true ->
is_finite (x v) = true -> is_finite (y v) = true ->
exists v' : t,
eval_ float_literal (__repr__ repr_finite v) = Ok v' /\
__eq__ v' (Vec v) = Ok true.
Proof.
intros Vx Vy Fx Fy. apply eval_repr; now apply finite_reads_back.
Qed.

End FiniteFloats.

(** The doctest: [repr(Vector2d(3, 4))] is [Vector2d(3.0, 4.0)], and
  [eval] of it equals the vector; and [Vector2d(3.0, nan)], whose
  representation raises [NameError]. *)
Lemma repr_evaluates_back_witness :
(__repr__ Sample.repr_finite Sample.v34 = "Vector2d(3.0, 4.0)" /\
 exists v' : t,
   eval_ Sample.float_literal (__repr__ Sample.repr_finite Sample.v34) = Ok v' /\
   __eq__ v' (Vec Sample.v34) = Ok true) /\
__repr__ Sample.repr_finite (mk (lit 3) S754_nan) = "Vector2d(3.0, nan)" /\
eval_ Sample.float_literal (__repr__ Sample.repr_finite (mk (lit 3) S754_nan))
  = Raise NameError.
Proof.
assert (H3 : reads_back Sample.repr_finite Sample.float_literal (lit 3)).
{ split; [vm_compute; reflexivity |].
  exists (ELit (lit 3)), (lit 3). repeat split; vm_compute; reflexivity. }
assert (H4 : reads_back Sample.repr_finite Sample.float_literal (lit 4)).
{ split; [vm_compute; reflexivity |].
  exists (ELit (lit 4)), (lit 4). repeat split; vm_compute; reflexivity. }
split; [| split; [vm_compute; reflexivity |]].
- destruct (repr_evaluates_back Sample.repr_finite Sample.float_literal Sample.v34
              (fun _ => H3) (fun _ => H4)) as (Hr & He & _).
  split; [exact Hr | exact (He eq_refl eq_refl)].
- destruct (repr_evaluates_back Sample.repr_finite Sample.float_literal
              (mk (lit 3) S754_nan) (fun _ => H3) (fun H => False_ind _ (diff_false_true H)))
    as (_ & _ & _ & Hn).
  apply Hn. right. reflexivity.
Defined.

(** Whatever the printer and the reader of finite floats, a vector with
  an infinite or NaN first component has a representation that
  raises [NameError] when evaluated. *)
Lemma repr_non_finite (repr_finite : float -> string)
    (float_literal : string -> option float) (f g : float) :
is_finite f = false ->
one_argument (float_repr repr_finite g) = true ->
(exists e, parse_arg float_literal (float_repr repr_finite g) = Ok e) ->
eval_ float_literal (__repr__ repr_finite (mk f g)) = Raise NameError.
Proof.
intros Hf Hg [e He]. unfold __repr__. cbn [x y].
rewrite eval_call;
  [| destruct f as [| [] | |]; try discriminate; reflexivity | assumption].
rewrite He.
destruct f as [| [] | |]; try discriminate; reflexivity.
Qed.

(** C7, as stated, fails: [Vector2d(float('inf'), 4)] prints as
  [Vector2d(inf, 4.0)], and evaluating that raises [NameError]. *)
Lemma repr_inf_does_not_evaluate :
__repr__ Sample.repr_finite (mk Sample.inf (lit 4)) = "Vector2d(inf, 4.0)" /\
eval_ Sample.float_literal (__repr__ Sample.repr_finite (mk Sample.inf (lit 4)))
  = Raise NameError.
Proof. split; vm_compute; reflexivity. Qed.

(** *** [__format__] *)

Section FormatFacts.
Variable float_format : float -> string -> Result string.
Variable atan2 : float -> float -> float.

Lemma endswith_p_app (s : string) : endswith_p (s +:+ "p") = true.
Proof.
induction s as [| c s IH]; [reflexivity |].
rewrite app_String. cbn [endswith_p]. rewrite IH.
destruct (s +:+ "p") eqn:E; [destruct s; discriminate | reflexivity].
Qed.

Lemma drop_last_app (s : string) (c : ascii) :
drop_last (s +:+ String c EmptyString) = s.
Proof.
induction s as [| d s IH]; [reflexivity |].
rewrite app_String. cbn [drop_last]. rewrite IH.
destruct (s +:+ String c EmptyString) eqn:E; [destruct s; discriminate | reflexivity].
Qed.

(** With the suffix the magnitude and the angle are formatted with the
rest of the specifier, between angle brackets. *)
Lemma format_polar (v : t) (spec : string) :
__format__ float_format atan2 v (spec +:+ "p") =
(a ← float_format (hypot (x v) (y v)) spec;
 b ← float_format (atan2 (y v) (x v)) spec;
 Ok ("<" +:+ a +:+ ", " +:+ b +:+ ">")).
Proof.
unfold __format__. now rewrite endswith_p_app, drop_last_app.
Qed.

(** Without it the two components are, between parentheses. *)
Lemma format_cartesian (v : t) (spec : string) :
endswith_p spec = false ->
__format__ float_format atan2 v spec =
(a ← float_format (x v) spec;
 b ← float_format (y v) spec;
 Ok ("(" +:+ a +:+ ", " +:+ b +:+ ")")).
Proof. unfold __format__. now intros ->. Qed.

End FormatFacts.



End Vector2dTextFacts.
(** ** The record cache *)

Module ScheduleFacts.
Import Schedule.

Lemma inv_init (d : gmap string (gmap string pyval)) : inv d (init d).
Proof.
split; cbn.
- reflexivity.
- intros k r H. now rewrite lookup_empty in H.
- intros k1 k2 r H. now rewrite lookup_empty in H.
Qed.

(** The three ways a fetch can go. *)
Lemma fetch_hit (st : state) (key : string) (r : ref) :
cache st !! key = Some r -> fetch key st = (Ok r, st).
Proof. unfold fetch. now intros ->. Qed.

Lemma fetch_miss (st : state) (key : string) (fs : gmap string pyval) :
cache st !! key = None -> dataset st !! key = Some fs ->
fetch key st =
  (Ok (length (heap st)),
   mkState (dataset st) (<[key := length (heap st)]> (cache st))
           (heap st ++ [mkRecord (variant_of (category key)) fs])).
Proof. unfold fetch, construct. now intros -> ->. Qed.

Lemma fetch_absent (st : state) (key : string) :
cache st !! key = None -> dataset st !! key = None ->
fetch key st = (Raise KeyError, st).
Proof. unfold fetch. now intros -> ->. Qed.

Lemma inv_fetch (d : gmap string (gmap string pyval)) (st : state) (key : string) :
inv d st -> inv d (snd (fetch key st)).
Proof.
intros [Hd Hc Hi].
destruct (cache st !! key) as [r |] eqn:Hk.
{ rewrite (fetch_hit _ _ _ Hk). now split. }
destruct (dataset st !! key) as [fs |] eqn:Hf.
2: { rewrite (fetch_absent _ _ Hk Hf). now split. }
rewrite (fetch_miss _ _ _ Hk Hf).
assert (Hfresh : forall k r, cache st !! k = Some r -> r <> length (heap st)).
{ intros k r Hkr. destruct (Hc k r Hkr) as (fs' & _ & Hr).
  apply lookup_lt_Some in Hr. lia. }
split; cbn.
- exact Hd.
- intros k r Hkr. destruct (decide (key = k)) as [<- | Hne].
  + rewrite lookup_insert_eq in Hkr. injection Hkr as <-.
    exists fs. split; [now rewrite <- Hd |].
    now rewrite list_lookup_middle.
  + rewrite lookup_insert_ne in Hkr by assumption.
    destruct (Hc k r Hkr) as (fs' & Hfs' & Hr).
    exists fs'. split; [assumption |].
    now apply lookup_app_l_Some.
- intros k1 k2 r H1 H2.
  destruct (decide (key = k1)) as [<- | Hne1];
    destruct (decide (key = k2)) as [<- | Hne2]; [reflexivity | | |].
  + rewrite lookup_insert_eq in H1. injection H1 as <-.
    rewrite lookup_insert_ne in H2 by assumption.
    now destruct (Hfresh _ _ H2).
  + rewrite lookup_insert_eq in H2. injection H2 as <-.
    rewrite lookup_insert_ne in H1 by assumption.
    now destruct (Hfresh _ _ H1).
  + rewrite lookup_insert_ne in H1, H2 by assumption.
    exact (Hi _ _ _ H1 H2).
Qed.

Lemma inv_construct (d : gmap string (gmap string pyval)) (st : state)
    (c : variant) (fs : gmap string pyval) :
inv d st -> inv d (snd (construct c fs st)).
Proof.
intros [Hd Hc Hi]. split; cbn; [exact Hd | | exact Hi].
intros k r Hkr. destruct (Hc k r Hkr) as (fs' & Hfs' & Hr).
exists fs'. split; [assumption | now apply lookup_app_l_Some].
Qed.

Lemma inv_step (d : gmap string (gmap string pyval)) (st st' : state) :
step st st' -> inv d st -> inv d st'.
Proof.
intros [s key | s c fs] H; [now apply inv_fetch | now apply inv_construct].
Qed.

Lemma reachable_inv (d : gmap string (gmap string pyval)) (st : state) :
reachable d st -> inv d st.
Proof.
unfold reachable. revert st.
apply rtc_ind_r; [apply inv_init |].
intros st st' _ Hstep IH. exact (inv_step d st st' Hstep IH).
Qed.

Lemma reachable_fetch (d : gmap string (gmap string pyval)) (st : state)
    (key : string) :
reachable d st -> reachable d (snd (fetch key st)).
Proof. intros H. eapply rtc_r; [exact H | constructor]. Qed.

Lemma fetch_all_steps (keys : list string) (st : state) :
rtc step st (fetch_all keys st).
Proof.
revert st. induction keys as [| k keys IH]; intros st; cbn; [constructor |].
eapply rtc_l; [apply step_fetch | apply IH].
Qed.

(** A cached reference stays cached, step after step. *)
Lemma cache_step (st st' : state) (k : string) (r : ref) :
step st st' -> cache st !! k = Some r -> cache st' !! k = Some r.
Proof.
intros [s key | s c fs] Hk; [| exact Hk].
unfold fetch.
destruct (cache s !! key) as [r' |] eqn:Hkey; [assumption |].
destruct (dataset s !! key) as [fs |]; [| assumption].
cbn. rewrite lookup_insert_ne; [assumption |]. congruence.
Qed.

Lemma cache_steps (st st' : state) (k : string) (r : ref) :
rtc step st st' -> cache st !! k = Some r -> cache st' !! k = Some r.
Proof. induction 1; eauto using cache_step. Qed.

(** Objects are never changed or removed: the heap only grows. *)
Lemma heap_step (st st' : state) (r : ref) (o : record) :
step st st' -> heap st !! r = Some o -> heap st' !! r = Some o.
Proof.
intros [s key | s c fs] Hr.
- unfold fetch.
  destruct (cache s !! key) as [r' |]; [assumption |].
  destruct (dataset s !! key) as [fs |]; [| assumption].
  cbn. now apply lookup_app_l_Some.
- cbn. now apply lookup_app_l_Some.
Qed.

Lemma heap_steps (st st' : state) (r : ref) (o : record) :
rtc step st st' -> heap st !! r = Some o -> heap st' !! r = Some o.
Proof. induction 1; eauto using heap_step. Qed.

Lemma fetch_present (d : gmap string (gmap string pyval)) (st : state)
    (key : string) (fs : gmap string pyval) :
inv d st -> d !! key = Some fs ->
exists r : ref,
  fetch key st = (Ok r, snd (fetch key st)) /\
  cache (snd (fetch key st)) !! key = Some r /\
  (length (heap (snd (fetch key st))) <= S (length (heap st)))%nat.
Proof.
intros [Hd Hc Hs] Hfs.
destruct (cache st !! key) as [r |] eqn:Hk.
- exists r. rewrite (fetch_hit _ _ _ Hk). cbn. repeat split; [assumption | lia].
- rewrite <- Hd in Hfs. rewrite (fetch_miss _ _ _ Hk Hfs). cbn.
  eexists. split; [reflexivity |]. split; [apply lookup_insert_eq |].
  rewrite length_app. cbn. lia.
Qed.

(** Two keys never fetch to the same object. *)
Lemma fetch_injective (d : gmap string (gmap string pyval)) (st : state)
    (k1 k2 : string) (r : ref) :
reachable d st ->
fst (fetch k1 st) = Ok r -> fst (fetch k2 (snd (fetch k1 st))) = Ok r ->
k1 = k2.
Proof.
intros Hreach H1 H2.
pose proof (inv_fetch d st k1 (reachable_inv d st Hreach)) as Hinv1.
pose proof (inv_fetch d _ k2 Hinv1) as Hinv2.
assert (Hc : forall s k x, fst (fetch k s) = Ok x ->
                           cache (snd (fetch k s)) !! k = Some x).
{ intros s k x. unfold fetch.
  destruct (cache s !! k) as [x' |] eqn:Hk; cbn; [congruence |].
  destruct (dataset s !! k) as [fs |]; cbn; [| discriminate].
  intros [= <-]. apply lookup_insert_eq. }
apply (inv_inj _ _ Hinv2 k1 k2 r); [| now apply Hc].
apply (cache_step _ _ k1 r (step_fetch _ k2)). now apply Hc.
Qed.

(** C1.  In every reachable state, fetching a key of the dataset
  returns a reference to the record built from its entry, building at
  most one object; every later fetch of the key, whatever the process
  did in between, returns the same reference and changes nothing, so
  it builds no second record, and the object behind the reference
  stays what it was. *)
Theorem fetch_idempotent (d : gmap string (gmap string pyval)) (st : state)
      (key : string) (fs : gmap string pyval) :
reachable d st -> d !! key = Some fs ->
exists (r : ref) (st' : state),
  fetch key st = (Ok r, st') /\
  deref st' r = Some (mkRecord (variant_of (category key)) fs) /\
  (length (heap st') <= S (length (heap st)))%nat /\
  forall st'' : state,
    rtc step st' st'' ->
    fetch key st'' = (Ok r, st'') /\
    deref st'' r = deref st' r.
Proof.
intros Hreach Hfs.
pose proof (reachable_inv d st Hreach) as Hinv.
destruct (fetch_present d st key fs Hinv Hfs) as (r & Hfetch & Hcache & Hlen).
exists r, (snd (fetch key st)).
assert (Hinv' : inv d (snd (fetch key st))) by now apply inv_fetch.
assert (Hobj : deref (snd (fetch key st)) r =
               Some (mkRecord (variant_of (category key)) fs)).
{ destruct (inv_cache _ _ Hinv' key r Hcache) as (fs' & Hfs' & Hr).
  unfold deref. rewrite Hr. congruence. }
split; [exact Hfetch |]. split; [exact Hobj |]. split; [exact Hlen |].
intros st'' Hsteps. split.
- apply fetch_hit. now apply (cache_steps _ _ _ _ Hsteps).
- unfold deref in *. rewrite Hobj. now apply (heap_steps _ _ _ _ Hsteps).
Qed.

(** C8.  In every reachable state, fetching a key that the dataset
  lacks raises [KeyError] and leaves the state, cache included, as it
  was. *)
Theorem fetch_missing_key (d : gmap string (gmap string pyval)) (st : state)
      (key : string) :
reachable d st -> d !! key = None -> fetch key st = (Raise KeyError, st).
Proof.
intros Hreach Hnone.
destruct (reachable_inv d st Hreach) as [Hd Hc _].
apply fetch_absent; [| now rewrite Hd].
destruct (cache st !! key) as [r |] eqn:Hk; [| reflexivity].
destruct (Hc key r Hk) as (fs & Hfs & _). congruence.
Qed.

(** The states of the test module: the sample dataset, then the event
  fetched, then two other records. *)
Lemma fetch_idempotent_witness :
exists (r : ref) (st' : state),
  fetch "event.33950" (init Sample.osconfeed) = (Ok r, st') /\
  deref st' r = Some Sample.event33950 /\
  fetch "event.33950" (fetch_all ["venue.1449"; "speaker.3471"] st') =
    (Ok r, fetch_all ["venue.1449"; "speaker.3471"] st').
Proof.
destruct (fetch_idempotent Sample.osconfeed (init Sample.osconfeed) "event.33950"
            (fields Sample.event33950))
  as (r & st' & Hf & Hd & _ & Hall);
  [constructor | vm_compute; reflexivity |].
exists r, st'. split; [exact Hf |]. split; [exact Hd |].
exact (proj1 (Hall _ (fetch_all_steps ["venue.1449"; "speaker.3471"] st'))).
Defined.

Lemma fetch_missing_key_witness :
fetch "venue.0" (snd (fetch "event.33950" (init Sample.osconfeed))) =
  (Raise KeyError, snd (fetch "event.33950" (init Sample.osconfeed))).
Proof.
apply (fetch_missing_key Sample.osconfeed).
- apply reachable_fetch. constructor.
- vm_compute; reflexivity.
Defined.

(** *** Display forms *)

Lemma embeds_middle (pre t post : string) : Text.embeds (pre +:+ t +:+ post) t.
Proof. now exists pre, post. Qed.

(** C9.  The display form depends on the kind of the record: a generic
  record shows the default representation; an event shows a text that
  embeds its title when it has one, and otherwise a text that embeds
  its serial number. *)
Theorem display_by_kind (title_field : string) (repr : pyval -> string)
      (r : record) :
(cls r = Generic -> display title_field repr r = Ok DefaultRepr) /\
(cls r = Event ->
 forall title : pyval, fields r !! title_field = Some title ->
   exists text : string,
     display title_field repr r = Ok (Shown text) /\
     Text.embeds text (repr title)) /\
(cls r = Event -> fields r !! title_field = None ->
 forall serial : pyval, fields r !! "serial" = Some serial ->
   exists text : string,
     display title_field repr r = Ok (Shown text) /\
     Text.embeds text (repr serial) /\
     text = "<Event serial=" +:+ repr serial +:+ ">").
Proof.
unfold display, serial_form, getattr. split; [| split].
- now intros ->.
- intros -> title ->. eexists. split; [reflexivity | apply embeds_middle].
- intros -> -> serial ->. eexists. split; [reflexivity |].
  split; [apply embeds_middle | reflexivity].
Qed.

(** [test_event_repr]: the event of the dataset shows its title,
  [Event(serial=77, kind='show')] shows its serial number. *)
Lemma display_by_kind_witness :
(exists text : string,
    display Sample.title_field Sample.repr Sample.event33950 = Ok (Shown text) /\
    Text.embeds text (Sample.repr (PyStr "There *Will* Be Bugs"))) /\
(exists text : string,
    display Sample.title_field Sample.repr Sample.event2 = Ok (Shown text) /\
    Text.embeds text (Sample.repr (Sample.int 77)) /\
    text = "<Event serial=" +:+ Sample.repr (Sample.int 77) +:+ ">").
Proof.
split.
- apply (proj1 (proj2 (display_by_kind Sample.title_field Sample.repr
                         Sample.event33950)));
    vm_compute; reflexivity.
- apply (proj2 (proj2 (display_by_kind Sample.title_field Sample.repr
                         Sample.event2)));
    vm_compute; reflexivity.
Defined.

(** An event with neither a title nor a serial number has no display
  form. *)
Lemma display_without_serial (title_field : string) (repr : pyval -> string)
    (r : record) :
cls r = Event -> fields r !! title_field = None -> fields r !! "serial" = None ->
display title_field repr r = Raise AttributeError.
Proof. unfold display, serial_form, getattr. now intros -> -> ->. Qed.

(** *** The assertions of [test_schedule_v2.py] on the sample *)

Example test_record_attr_access :
getattr Sample.spam_eggs "spam" = Ok (Sample.int 99) /\
getattr Sample.spam_eggs "eggs" = Ok (Sample.int 12).
Proof. split; vm_compute; reflexivity. Qed.

Example test_fetch_speaker_record :
let '(r, st) := fetch "speaker.3471" (init Sample.osconfeed) in
(speaker ← r;
 match deref st speaker with
 | Some o => getattr o "name"
 | None => Raise KeyError
 end) = Ok (PyStr "Anna Martelli Ravenscroft").
Proof. vm_compute; reflexivity. Qed.

Example test_event_repr :
display Sample.title_field Sample.repr Sample.event33950 =
  Ok (Shown "<Event 'There *Will* Be Bugs'>") /\
display Sample.title_field Sample.repr Sample.event2 =
  Ok (Shown "<Event serial=77>").
Proof. split; vm_compute; reflexivity. Qed.

(** [event.venue == Record.fetch('venue.1449')]: records have no [__eq__]
  of their own, so [==] is identity. *)
Example test_event_venue :
let '(_, st1) := fetch "event.33950" (init Sample.osconfeed) in
let '(v1, st2) := venue Sample.str Sample.event33950 st1 in
let '(v2, st3) := fetch "venue.1449" st2 in
v1 = v2 /\ st3 = st2 /\
(r ← v1;
 match deref st3 r with
 | Some o => getattr o "name"
 | None => Raise KeyError
 end) = Ok (PyStr "Portland 251").
Proof. vm_compute. repeat split; reflexivity. Qed.

End ScheduleFacts.

(** * Further properties of [vector2d_v3.py] *)

(** ** Bytes and rounding *)

Module Float64More.
Import Float64 Float64Facts.

Lemma shr_fexp_exponent (m : positive) (e : Z) (l : location) :
  e <= fexp prec emax (Zpos (digits2_pos m) + e) ->
  snd (shr_fexp prec emax (Zpos m) e l) = fexp prec emax (Zpos (digits2_pos m) + e).
Proof.
  intros Hpre. unfold shr_fexp, shr. cbn [Zdigits2].
  destruct (fexp prec emax (Zpos (digits2_pos m) + e) - e) as [| n | n] eqn:Hn;
    cbn [snd]; lia.
Qed.

Lemma digits2_succ_ge (m : positive) :
  Zpos (digits2_pos (m + 1)) <= Zpos (digits2_pos m) + 1.
Proof.
  pose proof (digits2_bounds m) as [_ Hhi].
  apply digits2_le; [lia |].
  rewrite Z.pow_add_r by lia. change (2 ^ 1) with 2. lia.
Qed.

(** The exponent of the rounded number is the canonical exponent of the
    number, or one more when rounding carries. *)
Lemma binary_round_aux_cases (sx : bool) (m : positive) (e : Z) (l : location) :
  -1074 <= e ->
  e <= fexp prec emax (Zpos (digits2_pos m) + e) ->
  (fexp prec emax (Zpos (digits2_pos m) + e) + 1 <= 971 ->
   exists m' e', binary_round_aux prec emax sx (Zpos m) e l = S754_finite sx m' e') /\
  (971 < fexp prec emax (Zpos (digits2_pos m) + e) ->
   binary_round_aux prec emax sx (Zpos m) e l = S754_infinity sx).
Proof.
  intros He Hpre. unfold binary_round_aux.
  pose proof (shr_fexp_canonical m e l Hpre) as H1.
  pose proof (shr_fexp_exponent m e l Hpre) as He1.
  pose proof (shr_fexp_pos m e l He) as [Hp1 _].
  destruct (shr_fexp prec emax (Zpos m) e l) as [mrs' e']. cbn [fst snd] in *.
  destruct H1 as (_ & _ & Hc). specialize (Hc ltac:(lia)).
  set (m1 := round_nearest_even (shr_m mrs') (loc_of_shr_record mrs')).
  assert (Hm1 : m1 = shr_m mrs' \/ m1 = shr_m mrs' + 1).
  { subst m1. unfold round_nearest_even.
    destruct (loc_of_shr_record mrs') as [| []]; auto.
    destruct (Z.even (shr_m mrs')); auto. }
  destruct (shr_m mrs') as [| q | q] eqn:Eq; try lia. cbn [Zdigits2] in Hc.
  destruct m1 as [| p1 | p1] eqn:Ep; try lia.
  assert (Hd : Zpos (digits2_pos q) <= Zpos (digits2_pos p1) <= Zpos (digits2_pos q) + 1).
  { destruct Hm1 as [Hm1 | Hm1].
    - injection Hm1 as ->. lia.
    - assert (p1 = (q + 1)%positive) by lia. subst p1.
      pose proof (digits2_succ_le q). pose proof (digits2_succ_ge q). lia. }
  assert (Hpre1 : e' <= fexp prec emax (Zpos (digits2_pos p1) + e')).
  { rewrite <- Hc at 1. apply fexp_le. lia. }
  assert (Hup : fexp prec emax (Zpos (digits2_pos p1) + e') <= e' + 1).
  { rewrite <- Hc at 2. unfold fexp. lia. }
  assert (He' : -1074 <= e') by (rewrite He1; unfold fexp, SpecFloat.emin, prec, emax; lia).
  pose proof (shr_fexp_exponent p1 e' loc_Exact Hpre1) as He2.
  pose proof (shr_fexp_pos p1 e' loc_Exact He') as [Hp2 _].
  destruct (shr_fexp prec emax (Zpos p1) e' loc_Exact) as [mrs'' e'']. cbn [fst snd] in *.
  destruct (shr_m mrs'') as [| p2 | p2]; try lia.
  unfold prec, emax in *. change (1024 - 53) with 971.
  split; intros Hb.
  - destruct (Z.leb_spec e'' 971); [eauto | lia].
  - destruct (Z.leb_spec e'' 971); [lia | reflexivity].
Qed.

Lemma binary_round_cases (sx : bool) (m : positive) :
  (Zpos (digits2_pos m) <= 1023 ->
   exists m' e', binary_round prec emax sx m 0 = S754_finite sx m' e') /\
  (1025 <= Zpos (digits2_pos m) -> binary_round prec emax sx m 0 = S754_infinity sx).
Proof.
  unfold binary_round, shl_align.
  set (d := Zpos (digits2_pos m)).
  assert (Hd : 1 <= d) by (subst d; lia).
  assert (Hf : fexp prec emax (d + 0) = Z.max (d - 53) (-1074)) by reflexivity.
  destruct (fexp prec emax (d + 0) - 0) as [| n | n] eqn:Hn.
  - destruct (binary_round_aux_cases sx m 0 loc_Exact ltac:(lia) ltac:(fold d; lia))
      as [Hfin Hinf].
    fold d in Hfin, Hinf. split; intros H; [apply Hfin | apply Hinf]; lia.
  - destruct (binary_round_aux_cases sx m 0 loc_Exact ltac:(lia) ltac:(fold d; lia))
      as [Hfin Hinf].
    fold d in Hfin, Hinf. split; intros H; [apply Hfin | apply Hinf]; lia.
  - assert (Hdig : Zpos (digits2_pos (Pos.iter xO m n)) + fexp prec emax (d + 0) = d).
    { rewrite digits2_shl. fold d. lia. }
    destruct (binary_round_aux_cases sx (Pos.iter xO m n) (fexp prec emax (d + 0)) loc_Exact)
      as [Hfin Hinf].
    + unfold fexp, SpecFloat.emin, prec, emax. lia.
    + rewrite Hdig. replace (d + 0) with d by lia. lia.
    + rewrite Hdig in Hfin, Hinf. replace (d + 0) with d in * by lia.
      split; intros H; [apply Hfin | apply Hinf]; lia.
Qed.

(** An [int] below [2 ^ 1023] in magnitude has a nearest double; from
    [2 ^ 1024] on it has none. *)
Lemma of_int_cases (n : Z) :
  (Z.abs n < 2 ^ 1023 -> of_int n = Some (lit n)) /\
  (2 ^ 1024 <= Z.abs n -> of_int n = None).
Proof.
  unfold of_int, lit, binary_normalize.
  destruct n as [| m | m]; cbn [Z.abs].
  - split; [reflexivity | intros H; exfalso].
    assert (0 < 2 ^ 1024) by (apply Z.pow_pos_nonneg; lia). lia.
  - destruct (binary_round_cases false m) as [Hfin Hinf]. split; intros H.
    + destruct Hfin as (m' & e' & ->); [apply digits2_le; lia | reflexivity].
    + rewrite Hinf; [reflexivity |].
      pose proof (digits2_ge m 1024 ltac:(lia) H). lia.
  - destruct (binary_round_cases true m) as [Hfin Hinf]. split; intros H.
    + destruct Hfin as (m' & e' & ->); [apply digits2_le; lia | reflexivity].
    + rewrite Hinf; [reflexivity |].
      pose proof (digits2_ge m 1024 ltac:(lia) H). lia.
Qed.

(** A canonical mantissa is not changed by rounding. *)
Lemma binary_round_aux_exact (sx : bool) (m : positive) (e : Z) :
  fexp prec emax (Zpos (digits2_pos m) + e) = e -> e <= 971 ->
  binary_round_aux prec emax sx (Zpos m) e loc_Exact = S754_finite sx m e.
Proof.
  intros Hc He. unfold binary_round_aux, shr_fexp, shr. cbn [Zdigits2].
  rewrite Hc, Z.sub_diag. cbn [shr_record_of_loc shr_m loc_of_shr_record round_nearest_even Zdigits2].
  rewrite Hc, Z.sub_diag. cbn [shr_record_of_loc shr_m].
  unfold prec, emax. change (1024 - 53) with 971.
  destruct (Z.leb_spec e 971); [reflexivity | lia].
Qed.

Lemma binary_round_small (sx : bool) (m : positive) :
  Zpos m < 2 ^ 53 ->
  exists (mz : positive) (ez : Z),
    binary_round prec emax sx m 0 = S754_finite sx mz ez /\
    ez <= 0 /\ Zpos mz = Zpos m * 2 ^ (- ez).
Proof.
  intros Hn. pose proof (digits2_le m 53 ltac:(lia) Hn) as Hd.
  unfold binary_round, shl_align.
  set (d := Zpos (digits2_pos m)) in *.
  assert (Hd1 : 1 <= d) by (subst d; lia).
  assert (Hf : fexp prec emax (d + 0) = d - 53)
    by (unfold fexp, SpecFloat.emin, prec, emax; lia).
  rewrite Hf.
  destruct (d - 53 - 0) as [| k | k] eqn:Hk; try lia.
  - exists m, 0. split; [| split; [lia | cbn; lia]].
    apply binary_round_aux_exact; [| lia].
    fold d. unfold fexp, SpecFloat.emin, prec, emax. lia.
  - exists (Pos.iter xO m k), (d - 53). split; [| split; [lia |]].
    + apply binary_round_aux_exact; [| lia].
      rewrite digits2_shl. fold d. unfold fexp, SpecFloat.emin, prec, emax. lia.
    + rewrite iter_xO. do 2 f_equal. lia.
Qed.

(** An [int] below [2 ^ 53] in magnitude is a double: its coercion
    equals it. *)
Lemma lit_exact (n : Z) : Z.abs n < 2 ^ 53 -> float_eq_int (lit n) n = true.
Proof.
  intros Hn. unfold lit, binary_normalize.
  destruct n as [| m | m]; [reflexivity | |]; cbn [Z.abs] in Hn.
  - destruct (binary_round_small false m Hn) as (mz & ez & -> & Hez & Hmz).
    unfold float_eq_int. destruct (Z.leb_spec 0 ez) as [H0 | H0]; apply Z.eqb_eq.
    + assert (ez = 0) by lia. subst ez. cbn in Hmz. rewrite Hmz. cbn. lia.
    + lia.
  - destruct (binary_round_small true m Hn) as (mz & ez & -> & Hez & Hmz).
    unfold float_eq_int. destruct (Z.leb_spec 0 ez) as [H0 | H0]; apply Z.eqb_eq.
    + assert (ez = 0) by lia. subst ez. cbn in Hmz.
      change (Zneg mz) with (- Zpos mz). rewrite Hmz. cbn. lia.
    + change (Zneg mz) with (- Zpos mz). change (Zneg m) with (- Zpos m). lia.
Qed.

(** The round bit after a shift is the last bit shifted out. *)
Lemma shr_1_r (mrs : shr_record) :
  0 <= shr_m mrs -> shr_r (shr_1 mrs) = Z.odd (shr_m mrs).
Proof.
  destruct mrs as [m r s]; cbn. intros Hm.
  destruct m as [| [p | p |] | p]; cbn [shr_m shr_r] in *; try reflexivity; lia.
Qed.

Lemma iter_shr_1_r (n : positive) (mrs : shr_record) :
  0 <= shr_m mrs ->
  shr_r (SpecFloat.iter_pos shr_1 n mrs) = Z.odd (shr_m mrs / 2 ^ (Zpos n - 1)).
Proof.
  revert mrs. induction n as [n IH | n IH |]; intros mrs Hm;
    cbn [SpecFloat.iter_pos];
    try assert (Hp : 0 < 2 ^ Zpos n) by (apply Z.pow_pos_nonneg; lia);
    try assert (Hp1 : 0 < 2 ^ (Zpos n - 1)) by (apply Z.pow_pos_nonneg; lia).
  - assert (H1 : 0 <= shr_m (shr_1 mrs))
      by (rewrite shr_1_m by lia; apply Z.div_pos; lia).
    assert (H2 : 0 <= shr_m (SpecFloat.iter_pos shr_1 n (shr_1 mrs)))
      by (rewrite iter_shr_1_m by lia; apply Z.div_pos; lia).
    rewrite IH, iter_shr_1_m, shr_1_m by lia.
    rewrite !Z.div_div by lia. do 2 f_equal.
    replace (Zpos n~1 - 1) with (1 + Zpos n + (Zpos n - 1)) by lia.
    rewrite !Z.pow_add_r by lia. change (2 ^ 1) with 2. ring.
  - assert (H2 : 0 <= shr_m (SpecFloat.iter_pos shr_1 n mrs))
      by (rewrite iter_shr_1_m by lia; apply Z.div_pos; lia).
    rewrite IH, iter_shr_1_m by lia.
    rewrite !Z.div_div by lia. do 2 f_equal.
    replace (Zpos n~0 - 1) with (Zpos n + (Zpos n - 1)) by lia.
    rewrite !Z.pow_add_r by lia. reflexivity.
  - rewrite shr_1_r by lia. now rewrite Z.div_1_r.
Qed.


(** A number of 1024 bits rounds to a double unless rounding to 53
    bits carries into a 1025th. *)
Lemma binary_round_aux_top (sx : bool) (m : positive) :
  2 ^ 1023 <= Zpos m < 2 ^ 1024 ->
  (Zpos m < 2 ^ 1024 - 2 ^ 970 ->
   exists m' e', binary_round_aux prec emax sx (Zpos m) 0 loc_Exact = S754_finite sx m' e') /\
  (2 ^ 1024 - 2 ^ 970 <= Zpos m ->
   binary_round_aux prec emax sx (Zpos m) 0 loc_Exact = S754_infinity sx).
Proof.
  intros Hm.
  assert (Hd : Zpos (digits2_pos m) = 1024) by (apply digits2_unique; [lia | exact Hm]).
  assert (E1024 : 2 ^ 1024 = 2 ^ 54 * 2 ^ 970) by (rewrite <- Z.pow_add_r by lia; reflexivity).
  assert (E971 : 2 ^ 971 = 2 * 2 ^ 970) by (rewrite <- (Z.pow_succ_r 2 970) by lia; reflexivity).
  assert (P970 : 0 < 2 ^ 970) by (apply Z.pow_pos_nonneg; lia).
  assert (E1023 : 2 ^ 1023 = 2 ^ 53 * 2 ^ 970) by (rewrite <- Z.pow_add_r by lia; reflexivity).
  set (t := Zpos m / 2 ^ 970).
  assert (Ht : 2 ^ 53 <= t < 2 ^ 54).
  { subst t. split.
    - apply Z.div_le_lower_bound; lia.
    - apply Z.div_lt_upper_bound; lia. }
  assert (Hq : Zpos m / 2 ^ 971 = t / 2).
  { subst t. rewrite E971, Z.mul_comm, <- Z.div_div by lia. reflexivity. }
  unfold binary_round_aux.
  assert (Hfst : fst (shr_fexp prec emax (Zpos m) 0 loc_Exact) =
                 SpecFloat.iter_pos shr_1 971 (shr_record_of_loc (Zpos m) loc_Exact) /\
                 snd (shr_fexp prec emax (Zpos m) 0 loc_Exact) = 971).
  { unfold shr_fexp, shr. cbn [Zdigits2]. rewrite Hd. split; reflexivity. }
  destruct Hfst as [Hfst Hsnd].
  destruct (shr_fexp prec emax (Zpos m) 0 loc_Exact) as [mrs' e']. cbn [fst snd] in *.
  subst e'.
  assert (Hqm : shr_m mrs' = t / 2).
  { rewrite Hfst, iter_shr_1_m by (rewrite shr_m_of_loc; lia).
    rewrite shr_m_of_loc. exact Hq. }
  assert (Hr : shr_r mrs' = Z.odd t).
  { rewrite Hfst, iter_shr_1_r by (cbn; lia). reflexivity. }
  clear Hfst.
  set (m1 := round_nearest_even (shr_m mrs') (loc_of_shr_record mrs')).
  assert (Hm1 : (Z.odd t = false -> m1 = t / 2) /\
                (Z.odd t = true -> Z.odd (t / 2) = true -> m1 = t / 2 + 1) /\
                (m1 = t / 2 \/ m1 = t / 2 + 1)).
  { subst m1. destruct mrs' as [q r s]. cbn [shr_m shr_r] in *. subst q r.
    unfold round_nearest_even, loc_of_shr_record. rewrite <- Z.negb_odd.
    destruct (Z.odd t), s, (Z.odd (t / 2)); cbn;
      repeat split; intros; try discriminate; auto. }
  clearbody m1. clear Hqm Hr mrs'.
  destruct Hm1 as (Heven & Hodd & Hor).
  split; intros Hb.
  - assert (Hm1b : 2 ^ 52 <= m1 < 2 ^ 53).
    { assert (Ht2 : t < 2 ^ 54 - 1).
      { subst t. apply Z.div_lt_upper_bound; lia. }
      destruct (Z.odd t) eqn:Eo.
      - assert (t / 2 < 2 ^ 53 - 1).
        { rewrite (Zdiv2_odd_eqn t) in Ht2, Ht. rewrite Eo in *.
          rewrite Z.div2_div in *. lia. }
        pose proof (Z.div_le_lower_bound t 2 (2 ^ 52) ltac:(lia) ltac:(lia)). lia.
      - rewrite Heven by reflexivity.
        pose proof (Z.div_le_lower_bound t 2 (2 ^ 52) ltac:(lia) ltac:(lia)).
        pose proof (Z.div_lt_upper_bound t 2 (2 ^ 53) ltac:(lia) ltac:(lia)). lia. }
    destruct m1 as [| p1 | p1]; try lia.
    assert (Hd1 : Zpos (digits2_pos p1) = 53) by (apply digits2_unique; [lia | exact Hm1b]).
    exists p1, 971.
    unfold shr_fexp, shr. cbn [Zdigits2]. rewrite Hd1. reflexivity.
  - assert (Ht2 : t = 2 ^ 54 - 1).
    { assert (2 ^ 54 - 1 <= t); [| lia].
      subst t. apply Z.div_le_lower_bound; lia. }
    assert (m1 = 2 ^ 53) as ->.
    { rewrite Hodd; rewrite Ht2; reflexivity. }
    reflexivity.
Qed.

Lemma binary_round_top (sx : bool) (m : positive) :
  (Zpos m < 2 ^ 1024 - 2 ^ 970 ->
   exists m' e', binary_round prec emax sx m 0 = S754_finite sx m' e') /\
  (2 ^ 1024 - 2 ^ 970 <= Zpos m -> binary_round prec emax sx m 0 = S754_infinity sx).
Proof.
  assert (E : 2 ^ 1024 = 2 * 2 ^ 1023) by (rewrite <- (Z.pow_succ_r 2 1023) by lia; reflexivity).
  assert (E' : 2 ^ 1023 = 2 ^ 53 * 2 ^ 970) by (rewrite <- Z.pow_add_r by lia; reflexivity).
  assert (P970 : 0 < 2 ^ 970) by (apply Z.pow_pos_nonneg; lia).
  destruct (binary_round_cases sx m) as [Hfin Hinf].
  destruct (Z_lt_le_dec (Zpos m) (2 ^ 1023)) as [Hlo | Hlo].
  - split; intros H; [| nia].
    apply Hfin. apply digits2_le; lia.
  - destruct (Z_lt_le_dec (Zpos m) (2 ^ 1024)) as [Hhi | Hhi].
    + assert (Hd : Zpos (digits2_pos m) = 1024) by (apply digits2_unique; lia).
      unfold binary_round, shl_align. rewrite Hd.
      change (fexp prec emax (1024 + 0) - 0) with 971.
      cbv beta iota.
      apply binary_round_aux_top. lia.
    + split; intros H; [nia |].
      apply Hinf. pose proof (digits2_ge m 1024 ltac:(lia) Hhi). lia.
Qed.

(** [float(n)] overflows exactly from [2 ^ 1024 - 2 ^ 970] on, the
    midpoint between the largest double and [2 ^ 1024]. *)
Lemma of_int_overflow (n : Z) :
  of_int n = None <-> 2 ^ 1024 - 2 ^ 970 <= Z.abs n.
Proof.
  assert (E' : 2 ^ 1024 = 2 ^ 54 * 2 ^ 970) by (rewrite <- Z.pow_add_r by lia; reflexivity).
  assert (P970 : 0 < 2 ^ 970) by (apply Z.pow_pos_nonneg; lia).
  unfold of_int, binary_normalize.
  destruct n as [| m | m]; cbn [Z.abs].
  - split; [discriminate | nia].
  - destruct (binary_round_top false m) as [Hfin Hinf].
    destruct (Z_lt_le_dec (Zpos m) (2 ^ 1024 - 2 ^ 970)) as [H | H].
    + destruct (Hfin H) as (m' & e' & ->). split; [discriminate | lia].
    + rewrite (Hinf H). split; [intros _; exact H | reflexivity].
  - destruct (binary_round_top true m) as [Hfin Hinf].
    destruct (Z_lt_le_dec (Zpos m) (2 ^ 1024 - 2 ^ 970)) as [H | H].
    + destruct (Hfin H) as (m' & e' & ->). split; [discriminate | lia].
    + rewrite (Hinf H). split; [intros _; exact H | reflexivity].
Qed.

End Float64More.

(** ** Deserialization *)

Module BytesMore.
Import Float64 Float64Facts Vector2d Vector2dFacts.

Lemma Z_of_byte_range (b : Byte.byte) : 0 <= Z_of_byte b < 256.
Proof.
  unfold Z_of_byte. pose proof (Byte.to_N_bounded b) as H. lia.
Qed.

Lemma byte_of_Z_of_byte (b : Byte.byte) : byte_of_Z (Z_of_byte b) = b.
Proof.
  unfold byte_of_Z. pose proof (Z_of_byte_range b) as H.
  rewrite Z.mod_small by lia. unfold Z_of_byte.
  rewrite N2Z.id, Byte.of_to_N. reflexivity.
Qed.

Lemma le_value_range (l : list Byte.byte) :
  0 <= le_value l < 2 ^ (8 * Z.of_nat (length l)).
Proof.
  induction l as [| b l IH]; cbn [le_value length].
  - cbn. lia.
  - pose proof (Z_of_byte_range b) as Hb.
    rewrite Z.shiftl_mul_pow2 by lia.
    replace (8 * Z.of_nat (S (length l))) with (8 + 8 * Z.of_nat (length l)) by lia.
    rewrite Z.pow_add_r by lia. change (2 ^ 8) with 256. nia.
Qed.

Lemma le_bytes_le_value (l : list Byte.byte) :
  le_bytes (length l) (le_value l) = l.
Proof.
  induction l as [| b l IH]; [reflexivity |].
  cbn [le_value length le_bytes].
  pose proof (Z_of_byte_range b) as Hb.
  pose proof (le_value_range l) as [Hl _].
  rewrite Z.shiftl_mul_pow2, Z.shiftr_div_pow2 by lia. change (2 ^ 8) with 256.
  assert (H1 : (Z_of_byte b + le_value l * 256) / 256 = le_value l)
    by (Z.div_mod_to_equations; lia).
  assert (H2 : byte_of_Z (Z_of_byte b + le_value l * 256) = b).
  { rewrite <- (byte_of_Z_of_byte b) at 2. unfold byte_of_Z.
    replace ((Z_of_byte b + le_value l * 256) mod 256) with (Z_of_byte b mod 256); [reflexivity |].
    Z.div_mod_to_equations; lia. }
  now rewrite H1, H2, IH.
Qed.

(** A pattern that is not read as NaN is the pattern of the double it is
    read as. *)
Lemma bits_of_float_of_bits (b : Z) :
  0 <= b < 2 ^ 64 -> is_nan (float_of_bits b) = false ->
  bits_of_float (float_of_bits b) = b.
Proof.
  intros Hb. unfold float_of_bits.
  assert (Hs : sign_bit (Z.testbit b 63) = (b / 2 ^ 63) * 2 ^ 63).
  { rewrite Z.testbit_odd, Z.shiftr_div_pow2 by lia. unfold sign_bit.
    assert (Hq : b / 2 ^ 63 = 0 \/ b / 2 ^ 63 = 1) by (pow2; Z.div_mod_to_equations; lia).
    destruct Hq as [-> | ->]; reflexivity. }
  assert (HE : Z.land (Z.shiftr b 52) (Z.ones 11) = (b / 2 ^ 52) mod 2 ^ 11)
    by (rewrite Z.land_ones, Z.shiftr_div_pow2 by lia; reflexivity).
  assert (HF : Z.land b (Z.ones 52) = b mod 2 ^ 52) by (now rewrite Z.land_ones by lia).
  rewrite HE, HF.
  set (s := Z.testbit b 63) in *.
  set (E := (b / 2 ^ 52) mod 2 ^ 11).
  set (F := b mod 2 ^ 52).
  assert (Hdec : b = sign_bit s + E * 2 ^ 52 + F).
  { rewrite Hs. subst E F. pow2. Z.div_mod_to_equations. lia. }
  assert (HEr : 0 <= E < 2 ^ 11) by (subst E; apply Z.mod_pos_bound; lia).
  assert (HFr : 0 <= F < 2 ^ 52) by (subst F; apply Z.mod_pos_bound; lia).
  clearbody s E F. clear Hs HE HF.
  destruct (Z.eqb_spec E 0) as [HE0 | HE0].
  - destruct F as [| m | m] eqn:EF; cbn [bits_of_float is_nan]; intros _; try lia.
    destruct (Z.leb_spec (2 ^ 52) (Zpos m)); lia.
  - destruct (Z.eqb_spec E 2047) as [HE1 | HE1].
    + destruct (Z.eqb_spec F 0) as [HF0 | HF0]; cbn [bits_of_float is_nan];
        [intros _; lia | discriminate].
    + destruct (F + 2 ^ 52) as [| m | m] eqn:EF; cbn [bits_of_float is_nan];
        try discriminate. intros _.
      destruct (Z.leb_spec (2 ^ 52) (Zpos m)); lia.
Qed.

Lemma pack_unpack (o : byteorder) (l : list Byte.byte) :
  length l = 8%nat -> is_nan (unpack o l) = false -> pack o (unpack o l) = l.
Proof.
  intros Hl Hn. unfold pack, unpack in *.
  set (l' := match o with Little => l | Big => rev l end) in *.
  assert (Hl' : length l' = 8%nat) by (subst l'; destruct o; [| rewrite length_rev]; exact Hl).
  pose proof (le_value_range l') as Hr. rewrite Hl' in Hr.
  rewrite bits_of_float_of_bits; [| exact Hr | exact Hn].
  rewrite <- Hl', le_bytes_le_value. subst l'.
  destruct o; [reflexivity | apply rev_involutive].
Qed.

(** Sixteen octets are two items of eight. *)
Lemma cast_sixteen (o : byteorder) (octets : list Byte.byte) :
  length octets = 16%nat ->
  cast o octets = Ok [unpack o (take 8 octets); unpack o (drop 8 octets)].
Proof.
  intros H. rewrite <- (take_drop 8 octets) at 1.
  apply cast_two; [rewrite length_take | rewrite length_drop]; lia.
Qed.

Lemma items_of_long (fuel : nat) (octets : list Byte.byte) :
  (17 <= length octets)%nat -> (length octets <= fuel)%nat ->
  exists a b c rest, items_of fuel octets = a :: b :: c :: rest.
Proof.
  intros H Hf.
  do 17 (destruct octets as [| ? octets]; [cbn in H; lia |]).
  do 17 (destruct fuel as [| fuel]; [cbn in Hf; lia |]).
  cbn. eauto.
Qed.

Lemma frombytes_not_sixteen (o : byteorder) (octets : list Byte.byte) :
  length octets <> 16%nat -> frombytes o octets = Raise TypeError.
Proof.
  intros H. unfold frombytes, cast.
  destruct (length octets mod itemsize =? 0)%nat eqn:Hmod; [| reflexivity].
  cbn [mbind Result_bind].
  destruct (le_lt_dec 17 (length octets)) as [Hlong | Hshort].
  - destruct (items_of_long (length octets) octets Hlong (le_n _)) as (a & b & c & rest & ->).
    reflexivity.
  - do 17 (destruct octets as [| ? octets]; [first [discriminate | reflexivity | now destruct H] |]).
    cbn in Hshort. lia.
Qed.

(** X1.  [frombytes] accepts exactly the buffers of sixteen octets:
    on sixteen octets it returns a vector of two doubles, whatever the
    octets are, and on any other length it raises [TypeError]. *)
Theorem frombytes_sixteen (o : byteorder) (octets : list Byte.byte) :
  match frombytes o octets with
  | Ok v => length octets = 16%nat /\ valid (x v) = true /\ valid (y v) = true
  | Raise e => e = TypeError /\ length octets <> 16%nat
  end.
Proof.
  destruct (Nat.eq_dec (length octets) 16%nat) as [H16 | Hne].
  - destruct (frombytes o octets) as [v | e] eqn:Hf.
    + split; [exact H16 | exact (frombytes_valid o octets v Hf)].
    + unfold frombytes in Hf. rewrite (cast_sixteen o octets H16) in Hf.
      cbn [mbind Result_bind] in Hf. rewrite new_floats in Hf. discriminate.
  - rewrite (frombytes_not_sixteen o octets Hne). now split.
Qed.

Lemma frombytes_ok_length (o : byteorder) (octets : list Byte.byte) (v : t) :
  frombytes o octets = Ok v -> length octets = 16%nat.
Proof.
  intros Hf. destruct (Nat.eq_dec (length octets) 16%nat) as [H | H]; [exact H |].
  rewrite (frombytes_not_sixteen o octets H) in Hf. discriminate.
Qed.

(** X2.  The round trip the other way: when [frombytes] reads octets as
    a vector with no NaN component, [bytes] of that vector gives the
    same octets back, in either byte order.  (A NaN is excluded because
    the model keeps one NaN pattern; the other patterns are not
    rewritten by CPython either.) *)
Theorem bytes_frombytes (o : byteorder) (octets : list Byte.byte) (v : t) :
  frombytes o octets = Ok v ->
  is_nan (x v) = false -> is_nan (y v) = false ->
  __bytes__ o v = octets.
Proof.
  intros Hf Hx Hy.
  pose proof (frombytes_ok_length o octets v Hf) as H16.
  unfold frombytes in Hf. rewrite (cast_sixteen o octets H16) in Hf.
  cbn [mbind Result_bind] in Hf. rewrite new_floats in Hf. injection Hf as <-.
  cbn [x y] in *. unfold __bytes__. cbn [x y].
  rewrite !pack_unpack; try assumption.
  - apply take_drop.
  - rewrite length_drop. lia.
  - rewrite length_take. lia.
Qed.

(** The sixteen octets of the doctest. *)
Lemma bytes_frombytes_witness :
  frombytes Little Sample.octets34 = Ok Sample.v34 /\
  __bytes__ Little Sample.v34 = Sample.octets34.
Proof.
  assert (H : frombytes Little Sample.octets34 = Ok Sample.v34)
    by (vm_compute; reflexivity).
  split; [exact H |].
  apply (bytes_frombytes Little Sample.octets34 Sample.v34 H); reflexivity.
Defined.

End BytesMore.

(** ** Equality and hashing *)

Module EqMore.
Import Float64 Float64Facts Vector2d Vector2dFacts.

Lemma eqb_sym (a b : float) : eqb a b = eqb b a.
Proof.
  destruct (eqb a b) eqn:Hab.
  - apply eqb_true_inv in Hab as [[Ha Hb] | [-> Hn]].
    + destruct a, b; try discriminate. reflexivity.
    + symmetry. now apply eqb_refl.
  - destruct (eqb b a) eqn:Hba; [| reflexivity].
    apply eqb_true_inv in Hba as [[Hb Ha] | [-> Hn]].
    + destruct a, b; try discriminate.
    + now rewrite eqb_refl in Hab.
Qed.

Lemma eqb_trans (a b c : float) : eqb a b = true -> eqb b c = true -> eqb a c = true.
Proof.
  intros Hab Hbc.
  apply eqb_true_inv in Hab as [[Ha Hb] | [-> Hn]]; [| exact Hbc].
  apply eqb_true_inv in Hbc as [[_ Hc] | [<- _]].
  - destruct a, c; try discriminate. reflexivity.
  - destruct a, b; try discriminate. reflexivity.
Qed.

Lemma eq_vec (v1 v2 : t) :
  __eq__ v1 (Vec v2) = Ok (eqb (x v1) (x v2) && eqb (y v1) (y v2)).
Proof. unfold __eq__. cbn. unfold num_eqb. now rewrite andb_true_r. Qed.

Lemma item_eq_refl (h : Vector2dHeap.heap) (a : nat) :
  Vector2dHeap.item_eq h a a = true.
Proof. unfold Vector2dHeap.item_eq, Vector2dHeap.is_. now rewrite Nat.eqb_refl. Qed.

Lemma item_eq_sym (h : Vector2dHeap.heap) (a b : nat) :
  Vector2dHeap.item_eq h a b = Vector2dHeap.item_eq h b a.
Proof.
  unfold Vector2dHeap.item_eq, Vector2dHeap.is_.
  now rewrite Nat.eqb_sym, eqb_sym.
Qed.

Lemma item_eq_trans (h : Vector2dHeap.heap) (a b c : nat) :
  Vector2dHeap.item_eq h a b = true -> Vector2dHeap.item_eq h b c = true ->
  Vector2dHeap.item_eq h a c = true.
Proof.
  unfold Vector2dHeap.item_eq, Vector2dHeap.is_. intros Hab Hbc.
  destruct (Nat.eqb_spec a b) as [-> | _]; [exact Hbc |].
  destruct (Nat.eqb_spec b c) as [<- | _]; [cbn in Hab; now rewrite Hab, orb_true_r |].
  cbn in Hab, Hbc. now rewrite (eqb_trans _ _ _ Hab Hbc), orb_true_r.
Qed.

(** X4.  Between vectors [==] is reflexive, symmetric and transitive,
    the items being compared as the comparison of tuples does: the
    same object, or two floats that compare equal. *)
Theorem eq_symmetric_transitive (h : Vector2dHeap.heap) (v1 v2 v3 : Vector2dHeap.t) :
  Vector2dHeap.__eq__ h v1 v1 = true /\
  Vector2dHeap.__eq__ h v1 v2 = Vector2dHeap.__eq__ h v2 v1 /\
  (Vector2dHeap.__eq__ h v1 v2 = true -> Vector2dHeap.__eq__ h v2 v3 = true ->
   Vector2dHeap.__eq__ h v1 v3 = true).
Proof.
  unfold Vector2dHeap.__eq__. split; [| split].
  - now rewrite !item_eq_refl.
  - now rewrite (item_eq_sym h (Vector2dHeap.x v1)), (item_eq_sym h (Vector2dHeap.y v1)).
  - intros H12 H23.
    apply andb_true_iff in H12 as [Hx12 Hy12].
    apply andb_true_iff in H23 as [Hx23 Hy23].
    now rewrite (item_eq_trans _ _ _ _ Hx12 Hx23), (item_eq_trans _ _ _ _ Hy12 Hy23).
Qed.

Lemma py_eqb_str_float (f : float) (s : string) :
  py_eqb (PyNum (NFloat f)) (PyStr s) = false.
Proof. reflexivity. Qed.

Lemma tuple_eqb_length (l k : list pyval) :
  tuple_eqb l k = true -> length l = length k.
Proof.
  revert k. induction l as [| a l IH]; intros [| b k]; cbn; try discriminate; [reflexivity |].
  intros H. apply andb_true_iff in H as [_ H]. f_equal. now apply IH.
Qed.

Lemma tuple_eqb_chars (v : t) (s : string) : tuple_eqb (__iter__ v) (chars s) = false.
Proof. destruct s as [| c s]; reflexivity. Qed.

(** X5.  A vector is unequal to every tuple or list whose length is
    not two and to every string, and comparing it with a number or
    with [None] raises [TypeError], since [tuple(other)] does. *)
Theorem eq_other_shapes (v : t) :
  (forall items : list pyval,
      length items <> 2%nat ->
      __eq__ v (Tuple items) = Ok false /\ __eq__ v (PyList items) = Ok false) /\
  (forall s : string, __eq__ v (Obj (PyStr s)) = Ok false) /\
  (forall n : number, __eq__ v (Obj (PyNum n)) = Raise TypeError) /\
  __eq__ v (Obj PyNone) = Raise TypeError.
Proof.
  split; [| split; [| split]].
  - intros items Hlen.
    assert (H : tuple_eqb (__iter__ v) items = false).
    { destruct (tuple_eqb (__iter__ v) items) eqn:E; [| reflexivity].
      apply tuple_eqb_length in E. cbn in E. congruence. }
    unfold __eq__. cbn [tuple_ mbind Result_bind]. now rewrite H.
  - intros s. unfold __eq__. cbn [tuple_ mbind Result_bind].
    now rewrite tuple_eqb_chars.
  - reflexivity.
  - reflexivity.
Qed.

(** With a NaN object at address 0: [(nan, 0.0) == (nan, -0.0)] and
    [(nan, -0.0) == (nan, 0.0)], the NaN being one object. *)
Lemma eq_symmetric_transitive_witness :
  Vector2dHeap.__eq__ Sample.heap4 (Vector2dHeap.mk 0 1) (Vector2dHeap.mk 0 1) = true.
Proof.
  apply (proj2 (proj2 (eq_symmetric_transitive Sample.heap4 (Vector2dHeap.mk 0 1)
                         (Vector2dHeap.mk 0 2) (Vector2dHeap.mk 0 1))));
    vm_compute; reflexivity.
Defined.

(** [Vector2d(3, 4) == (3.0, 4.0, 5.0)] is false. *)
Lemma eq_other_shapes_witness :
  __eq__ Sample.v34 (Tuple [PyNum (NFloat (lit 3)); PyNum (NFloat (lit 4));
                             PyNum (NFloat (lit 5))]) = Ok false.
Proof.
  apply (proj1 (eq_other_shapes Sample.v34)). cbn. lia.
Defined.

End EqMore.

Module HashMore.
Import Float64 Float64Facts Vector2d Vector2dFacts.

(** X7.  The hash does not see the order of the components: a vector
    and the vector with its components swapped hash alike, and every
    vector with two equal components hashes to zero. *)
Theorem hash_collisions (a b : float) :
  __hash__ (mk a b) = __hash__ (mk b a) /\
  hash_ (mk a b) = hash_ (mk b a) /\
  __hash__ (mk a a) = 0 /\ hash_ (mk a a) = 0.
Proof.
  unfold hash_, __hash__. cbn [x y].
  rewrite (Z.lxor_comm (hash b) (hash a)), Z.lxor_nilpotent. repeat split.
Qed.

Lemma hash_range (f : float) : - 2 ^ 61 < hash f < 2 ^ 61.
Proof.
  destruct f as [s | s | | s m e]; cbn [hash]; unfold hash_inf, hash_nan; pow2;
    try (destruct s; lia); try lia.
  unfold hash_bits, hash_modulus. pow2.
  set (h := (Zpos m * 2 ^ (e mod 61)) mod _).
  assert (Hh : 0 <= h < 2305843009213693952 - 1) by (subst h; apply Z.mod_pos_bound; lia).
  clearbody h.
  destruct s; [destruct (Z.eqb_spec (- h) (-1)) | destruct (Z.eqb_spec h (-1))]; lia.
Qed.

Lemma log2_small (n a : Z) : 0 < n -> 0 <= a < 2 ^ n -> Z.log2 a < n.
Proof.
  intros Hn Ha. destruct (Z.eq_dec a 0) as [-> | Hne]; [cbn; lia |].
  apply Z.log2_lt_pow2; lia.
Qed.

Lemma lxor_small (n a b : Z) :
  0 <= n -> 0 <= a < 2 ^ n -> 0 <= b < 2 ^ n -> 0 <= Z.lxor a b < 2 ^ n.
Proof.
  intros Hn Ha Hb.
  assert (H0 : 0 <= Z.lxor a b) by (apply Z.lxor_nonneg; lia).
  split; [exact H0 |].
  destruct (Z.eq_dec (Z.lxor a b) 0) as [-> | Hne]; [apply Z.pow_pos_nonneg; lia |].
  destruct (Z.eq_dec n 0) as [-> | Hn0].
  { change (2 ^ 0) with 1 in *. assert (a = 0) by lia. assert (b = 0) by lia.
    subst. now destruct Hne. }
  apply Z.log2_lt_pow2; [lia |].
  pose proof (Z.log2_lxor a b ltac:(lia) ltac:(lia)) as Hl.
  pose proof (log2_small n a ltac:(lia) Ha).
  pose proof (log2_small n b ltac:(lia) Hb). lia.
Qed.

Lemma lxor_range (n a b : Z) :
  0 <= n -> - 2 ^ n <= a < 2 ^ n -> - 2 ^ n <= b < 2 ^ n ->
  - 2 ^ n <= Z.lxor a b < 2 ^ n.
Proof.
  intros Hn Ha Hb.
  assert (Hlnot : forall z, Z.lnot z = - z - 1) by (intros; unfold Z.lnot; lia).
  destruct (Z_lt_le_dec a 0) as [Han | Hap], (Z_lt_le_dec b 0) as [Hbn | Hbp].
  - replace a with (Z.lnot (Z.lnot a)) by apply Z.lnot_involutive.
    replace b with (Z.lnot (Z.lnot b)) by apply Z.lnot_involutive.
    rewrite Z.lxor_lnot_lnot.
    pose proof (lxor_small n (Z.lnot a) (Z.lnot b) Hn) as H.
    rewrite !Hlnot in *. lia.
  - replace a with (Z.lnot (Z.lnot a)) by apply Z.lnot_involutive.
    rewrite <- Z.lnot_lxor_l.
    pose proof (lxor_small n (Z.lnot a) b Hn) as H.
    rewrite !Hlnot in *. lia.
  - replace b with (Z.lnot (Z.lnot b)) by apply Z.lnot_involutive.
    rewrite <- Z.lnot_lxor_r.
    pose proof (lxor_small n a (Z.lnot b) Hn) as H.
    rewrite !Hlnot in *. lia.
  - pose proof (lxor_small n a b Hn). lia.
Qed.

(** X8.  The exclusive or of the two component hashes is at least
    [-2 ** 61] and below [2 ** 61], so the builtin never has to reduce
    it; the builtin never reports [-1], and it differs from what
    [__hash__] returns only there, where it reports [-2].  The lower
    bound is reached, by [Vector2d(2.0 ** 60, -2.0 ** 60)]. *)
Theorem hash_fits :
  (forall v : t,
     - 2 ^ 61 <= __hash__ v < 2 ^ 61 /\
     - 2 ^ 61 <= hash_ v < 2 ^ 61 /\
     hash_ v <> -1 /\
     (hash_ v <> __hash__ v -> __hash__ v = -1 /\ hash_ v = -2)) /\
  __hash__ (mk (lit (2 ^ 60)) (lit (- 2 ^ 60))) = - 2 ^ 61 /\
  hash_ (mk (lit (2 ^ 60)) (lit (- 2 ^ 60))) = - 2 ^ 61.
Proof.
  split; [| split; vm_compute; reflexivity].
  intros v.
  assert (H : - 2 ^ 61 <= __hash__ v < 2 ^ 61).
  { unfold __hash__. pose proof (hash_range (x v)). pose proof (hash_range (y v)).
    apply lxor_range; lia. }
  split; [exact H |]. unfold hash_.
  destruct (Z.eqb_spec (__hash__ v) (-1)) as [Heq | Hne]; pow2; repeat split; try lia.
Qed.

End HashMore.

(** ** Attributes and construction *)

Module ObjectMore.
Import Vector2dObject Vector2dObjectFacts.

Lemma setattr_plain (self : instance) (name : string) (value : pyval) :
  name <> "x" -> name <> "y" ->
  name <> "__class__" -> name <> "__dict__" -> name <> "__weakref__" ->
  setattr self name value = Ok (<[name := value]> self).
Proof.
  intros Hx Hy Hc Hd Hw. unfold setattr, class_lookup.
  apply String.eqb_neq in Hx, Hy, Hc, Hd, Hw. rewrite Hx, Hy, Hc, Hd, Hw.
  now destruct (existsb (String.eqb name) plain_names).
Qed.

(** X9.  Five names are protected: [x] and [y], and the three data
    descriptors every instance has, [__class__], [__dict__] and
    [__weakref__].  Assigning to any other name succeeds and stores
    the value; the two properties keep their values unless the name is
    one of the mangled private names, in which case the property
    returns the value just assigned.  Assigning a number, a string or
    [None] to [__class__] or to [__dict__] raises [TypeError], and
    assigning to [__weakref__] raises [AttributeError]; the instance
    is left as it was. *)
Theorem other_attributes_assignable (self : instance) (value : pyval) :
  (forall name : string,
     name <> "x" -> name <> "y" ->
     name <> "__class__" -> name <> "__dict__" -> name <> "__weakref__" ->
     assign self name value = (<[name := value]> self, None) /\
     (name <> mangle "__x" -> x (<[name := value]> self) = x self) /\
     (name <> mangle "__y" -> y (<[name := value]> self) = y self) /\
     (name = mangle "__x" -> x (<[name := value]> self) = Ok value) /\
     (name = mangle "__y" -> y (<[name := value]> self) = Ok value)) /\
  assign self "__class__" value = (self, Some TypeError) /\
  assign self "__dict__" value = (self, Some TypeError) /\
  assign self "__weakref__" value = (self, Some AttributeError).
Proof.
  split; [| split; [| split]; reflexivity].
  intros name Hx Hy Hc Hd Hw. unfold assign.
  rewrite (setattr_plain self name value Hx Hy Hc Hd Hw).
  unfold x, y, instance_attr. repeat split.
  - intros H. now rewrite lookup_insert_ne.
  - intros H. now rewrite lookup_insert_ne.
  - intros ->. now rewrite lookup_insert_eq.
  - intros ->. now rewrite lookup_insert_eq.
Qed.

(** [v1.z = 5] on the vector of the doctest. *)
Lemma other_attributes_assignable_witness :
  assign Sample.v34_instance "z" (PyNum (NInt 5)) =
    (<["z" := PyNum (NInt 5)]> Sample.v34_instance, None) /\
  x (<["z" := PyNum (NInt 5)]> Sample.v34_instance) = x Sample.v34_instance.
Proof.
  destruct (proj1 (other_attributes_assignable Sample.v34_instance (PyNum (NInt 5))) "z")
    as (Ha & Hx & _); [discriminate | discriminate | discriminate | discriminate | discriminate |].
  split; [exact Ha | apply Hx; discriminate].
Defined.

End ObjectMore.

Module NewMore.
Import Float64 Float64Facts Vector2d Vector2dFacts Float64More.

Lemma new_bind (a b : number) :
  new a b = (fx ← float_ a; fy ← float_ b; Ok (mk fx fy)).
Proof.
  unfold new, Vector2dObject.__init__.
  destruct (float_ a) as [fx | e]; [| reflexivity].
  destruct (float_ b) as [fy | e]; reflexivity.
Qed.

Lemma float_raise (a : number) (e : exn) :
  float_ a = Raise e -> e = OverflowError /\ exists n, a = NInt n /\ of_int n = None.
Proof.
  destruct a as [n | c | f]; cbn; try discriminate.
  destruct (of_int n) eqn:E; [discriminate |]. intros [= <-]. eauto.
Qed.

(** X10.  For arguments that are [int], [bool] or [float] objects,
    [Vector2d(a, b)] succeeds exactly when both coercions do, and then
    its components are [float(a)] and [float(b)]; it fails exactly
    when one of the two is an [int] of magnitude [2 ** 1024 - 2 ** 970]
    or more, and then with [OverflowError]. *)
Theorem new_outcomes (a b : number) :
  (forall v : t, new a b = Ok v <-> float_ a = Ok (x v) /\ float_ b = Ok (y v)) /\
  (forall e : exn, new a b = Raise e -> e = OverflowError) /\
  ((exists e : exn, new a b = Raise e) <->
   exists n : Z, (a = NInt n \/ b = NInt n) /\ 2 ^ 1024 - 2 ^ 970 <= Z.abs n).
Proof.
  rewrite new_bind. split; [| split].
  - intros [vx vy]. cbn [x y]. split.
    + destruct (float_ a) as [fx | e]; [| discriminate].
      destruct (float_ b) as [fy | e]; [| discriminate].
      cbn. now intros [= -> ->].
    + now intros [-> ->].
  - intros e. destruct (float_ a) as [fx | ea] eqn:Ha.
    + destruct (float_ b) as [fy | eb] eqn:Hb; [discriminate |].
      cbn. intros [= <-]. now destruct (float_raise b eb Hb) as (-> & _).
    + cbn. intros [= <-]. now destruct (float_raise a ea Ha) as (-> & _).
  - split.
    + intros [e He]. destruct (float_ a) as [fx | ea] eqn:Ha.
      * destruct (float_ b) as [fy | eb] eqn:Hb; [discriminate |].
        destruct (float_raise b eb Hb) as (_ & n & -> & Hn).
        exists n. split; [now right | now apply of_int_overflow].
      * destruct (float_raise a ea Ha) as (_ & n & -> & Hn).
        exists n. split; [now left | now apply of_int_overflow].
    + intros (n & [-> | ->] & Hn); apply of_int_overflow in Hn.
      * exists OverflowError. cbn. now rewrite Hn.
      * destruct (float_ a) as [fx | ea]; [| now exists ea].
        exists OverflowError. cbn. now rewrite Hn.
Qed.

(** X11.  The bound is exact: an [int] argument is coerced when its
    magnitude is below [2 ** 1024 - 2 ** 970], half way between the
    largest double and [2 ** 1024]; from there on the constructor
    raises [OverflowError], in either position. *)
Theorem new_int_overflow (n : Z) (b : number) :
  (Z.abs n < 2 ^ 1024 - 2 ^ 970 -> float_ (NInt n) = Ok (lit n)) /\
  (2 ^ 1024 - 2 ^ 970 <= Z.abs n ->
   new (NInt n) b = Raise OverflowError /\
   forall f : float, new (NFloat f) (NInt n) = Raise OverflowError).
Proof.
  split; intros H.
  - cbn. destruct (of_int n) as [f |] eqn:E.
    + unfold of_int in E. fold (lit n) in E. destruct (lit n); congruence.
    + apply of_int_overflow in E. lia.
  - apply of_int_overflow in H. rewrite !new_bind. cbn. rewrite H. split; reflexivity.
Qed.

(** X6.  A vector built from two [int]s below [2 ^ 53] in magnitude
    equals the tuple and the list of those [int]s.  Beyond that bound
    the coercion rounds and the comparison, which is exact, can fail:
    [Vector2d(2 ** 53 + 1, 0) == (2 ** 53 + 1, 0)] is false. *)
Theorem int_vector_equals_int_tuple :
  (forall n k : Z,
     Z.abs n < 2 ^ 53 -> Z.abs k < 2 ^ 53 ->
     exists v : t,
       new (NInt n) (NInt k) = Ok v /\
       __eq__ v (Tuple [PyNum (NInt n); PyNum (NInt k)]) = Ok true /\
       __eq__ v (PyList [PyNum (NInt n); PyNum (NInt k)]) = Ok true) /\
  (exists v : t,
     new (NInt (2 ^ 53 + 1)) (NInt 0) = Ok v /\
     __eq__ v (Tuple [PyNum (NInt (2 ^ 53 + 1)); PyNum (NInt 0)]) = Ok false).
Proof.
  split.
  - intros n k Hn Hk.
    assert (Hb : 2 ^ 53 <= 2 ^ 1023) by (apply Z.pow_le_mono_r; lia).
    destruct (of_int_cases n) as [Hsn _]. destruct (of_int_cases k) as [Hsk _].
    exists (mk (lit n) (lit k)). split.
    + rewrite new_bind. cbn. rewrite Hsn, Hsk by lia. reflexivity.
    + unfold __eq__.
      cbn [tuple_ mbind Result_bind __iter__ tuple_eqb x y py_eqb num_eqb].
      rewrite !lit_exact by assumption. split; reflexivity.
  - eexists. split; vm_compute; reflexivity.
Qed.

(** [Vector2d(3, 4) == (3, 4)]. *)
Lemma int_vector_equals_int_tuple_witness :
  exists v : t,
    new (NInt 3) (NInt 4) = Ok v /\
    __eq__ v (Tuple [PyNum (NInt 3); PyNum (NInt 4)]) = Ok true /\
    __eq__ v (PyList [PyNum (NInt 3); PyNum (NInt 4)]) = Ok true.
Proof.
  apply (proj1 int_vector_equals_int_tuple 3 4); vm_compute; reflexivity.
Defined.

(** The two sides of the bound. *)
Lemma new_int_overflow_witness :
  float_ (NInt (2 ^ 1024 - 2 ^ 970 - 1)) = Ok (lit (2 ^ 1024 - 2 ^ 970 - 1)) /\
  new (NInt (2 ^ 1024 - 2 ^ 970)) (NInt 0) = Raise OverflowError.
Proof.
  split.
  - apply (proj1 (new_int_overflow (2 ^ 1024 - 2 ^ 970 - 1) (NInt 0))).
    vm_compute. reflexivity.
  - apply (proj2 (new_int_overflow (2 ^ 1024 - 2 ^ 970) (NInt 0))).
    vm_compute. discriminate.
Defined.

End NewMore.

(** ** Serialization, magnitude and formatting *)

Module MethodsMore.
Import Float64 Float64Facts Vector2d Vector2dFacts Vector2dText Vector2dTextFacts.

(** X3.  Two vectors of doubles with the same serialization are the same
    pair of floats.  The converse of [==] fails: [Vector2d(0.0, 4)] and
    [Vector2d(-0.0, 4)] are equal and their bytes differ. *)
Theorem bytes_injective (o : byteorder) :
  (forall v1 v2 : t,
     valid (x v1) = true -> valid (y v1) = true ->
     valid (x v2) = true -> valid (y v2) = true ->
     __bytes__ o v1 = __bytes__ o v2 -> v1 = v2) /\
  __eq__ (mk (S754_zero false) (lit 4)) (Vec (mk (S754_zero true) (lit 4))) = Ok true /\
  __bytes__ o (mk (S754_zero false) (lit 4)) <> __bytes__ o (mk (S754_zero true) (lit 4)).
Proof.
  split; [| split; [reflexivity | destruct o; vm_compute; discriminate]].
  intros v1 v2 Hx1 Hy1 Hx2 Hy2 H.
  pose proof (frombytes_bytes_eq o v1 Hx1 Hy1) as H1.
  pose proof (frombytes_bytes_eq o v2 Hx2 Hy2) as H2.
  rewrite H in H1. congruence.
Qed.

(** The vector read from the doctest's octets is [Vector2d(3, 4)]
    itself, since the two serialize alike. *)
Lemma bytes_injective_witness :
  mk (float_of_bits 0x4008000000000000) (float_of_bits 0x4010000000000000) = Sample.v34.
Proof.
  apply (proj1 (bytes_injective Little)); vm_compute; reflexivity.
Defined.

Section FormatExtra.
Variable repr_finite : float -> string.
Variable float_format : float -> string -> Result string.
Variable atan2 : float -> float -> float.

(** X13.  For every specifier [spec], formatting with [spec] followed by
    [p] formats the magnitude and the angle with [spec] between angle
    brackets; a specifier that does not end in [p] formats the two
    components between parentheses; and an exception raised by the
    formatting of the first coordinate is the outcome of
    [__format__]. *)
Theorem format_dispatch (v : t) (spec : string) :
  __format__ float_format atan2 v (spec +:+ "p") =
    (a ← float_format (__abs__ v) spec;
     b ← float_format (angle atan2 v) spec;
     Ok ("<" +:+ a +:+ ", " +:+ b +:+ ">")) /\
  (endswith_p spec = false ->
   __format__ float_format atan2 v spec =
     (a ← float_format (x v) spec;
      b ← float_format (y v) spec;
      Ok ("(" +:+ a +:+ ", " +:+ b +:+ ")"))) /\
  (forall e : exn,
     float_format (x v) spec = Raise e -> endswith_p spec = false ->
     __format__ float_format atan2 v spec = Raise e) /\
  (forall e : exn,
     float_format (__abs__ v) spec = Raise e ->
     __format__ float_format atan2 v (spec +:+ "p") = Raise e).
Proof.
  split; [apply format_polar |]. split; [apply format_cartesian |]. split.
  - intros e He Hp. rewrite format_cartesian by assumption. now rewrite He.
  - intros e He. rewrite format_polar. unfold __abs__ in He. now rewrite He.
Qed.

(** The builtin's promise: [format(f, '')] is [str(f)]. *)
Hypothesis format_empty :
  forall f : float, float_format f EmptyString = Ok (float_repr repr_finite f).

(** X14.  With the empty specifier [format(v)] is [str(v)], and
    [repr(v)] is the class name followed by [str(v)]. *)
Theorem format_empty_is_str (v : t) :
  __format__ float_format atan2 v EmptyString = Ok (__str__ repr_finite v) /\
  __repr__ repr_finite v = "Vector2d" +:+ __str__ repr_finite v.
Proof.
  split; [| reflexivity].
  rewrite format_cartesian by reflexivity. rewrite !format_empty. reflexivity.
Qed.
End FormatExtra.

(** The doctest: [format(v1)] is [(3.0, 4.0)], what [print(v1)] shows. *)
Lemma format_empty_is_str_witness :
  __format__ Sample.float_format (fun _ _ => S754_nan) Sample.v34 EmptyString =
    Ok "(3.0, 4.0)" /\
  __repr__ Sample.repr_finite Sample.v34 =
    "Vector2d" +:+ __str__ Sample.repr_finite Sample.v34.
Proof.
  destruct (format_empty_is_str Sample.repr_finite Sample.float_format
              (fun _ _ => S754_nan) (fun f => eq_refl) Sample.v34) as [Hf Hr].
  split; [exact Hf | exact Hr].
Defined.

End MethodsMore.

(** ** What equal vectors share *)

Module EqualMore.
Import Float64 Float64Facts Vector2d Vector2dFacts Vector2dText Vector2dTextFacts EqMore.

Lemma item_eq_hypot (h : Vector2dHeap.heap) (a a' b b' : nat) :
  Vector2dHeap.item_eq h a a' = true -> Vector2dHeap.item_eq h b b' = true ->
  hypot (h a) (h b) = hypot (h a') (h b').
Proof.
  intros Ha Hb.
  assert (H : forall c d, Vector2dHeap.item_eq h c d = true ->
            is_inf (h c) = is_inf (h d) /\ is_nan (h c) = is_nan (h d) /\
            mag (h c) = mag (h d)).
  { intros c d Hcd. unfold Vector2dHeap.item_eq, Vector2dHeap.is_ in Hcd.
    apply orb_true_iff in Hcd as [Hcd | Hcd].
    - apply Nat.eqb_eq in Hcd. now subst.
    - apply eqb_true_inv in Hcd as [[Hf Hg] | [-> _]]; [| auto].
      destruct (h c), (h d); try discriminate. auto. }
  destruct (H a a' Ha) as (Ia & Na & Ma), (H b b' Hb) as (Ib & Nb & Mb).
  unfold hypot, sum_squares. now rewrite Ia, Ib, Na, Nb, Ma, Mb.
Qed.

(** X16.  Vectors that compare equal have the same truth value. *)
Theorem equal_vectors_agree (h : Vector2dHeap.heap) (v1 v2 : Vector2dHeap.t) :
  Vector2dHeap.__eq__ h v1 v2 = true ->
  __bool__ (Vector2dHeap.contents h v1) = __bool__ (Vector2dHeap.contents h v2).
Proof.
  intros H. apply andb_true_iff in H as [Hx Hy].
  unfold __bool__, __abs__, Vector2dHeap.contents. cbn [x y].
  now rewrite (item_eq_hypot h _ _ _ _ Hx Hy).
Qed.

(** Two vectors that hold one NaN object, with [0.0] and [-0.0]. *)
Lemma equal_vectors_agree_witness :
  __bool__ (Vector2dHeap.contents Sample.heap4 (Vector2dHeap.mk 0 1))
  = __bool__ (Vector2dHeap.contents Sample.heap4 (Vector2dHeap.mk 0 2)).
Proof.
  apply (equal_vectors_agree Sample.heap4 (Vector2dHeap.mk 0 1) (Vector2dHeap.mk 0 2)).
  vm_compute. reflexivity.
Defined.

(** X15.  The representation tells unequal vectors apart: when the
    printed components read back, two vectors with the same
    representation are equal. *)
Theorem repr_distinguishes (repr_finite : float -> string)
    (float_literal : string -> option float) (v1 v2 : t) :
  reads_back repr_finite float_literal (x v1) ->
  reads_back repr_finite float_literal (y v1) ->
  reads_back repr_finite float_literal (x v2) ->
  reads_back repr_finite float_literal (y v2) ->
  __repr__ repr_finite v1 = __repr__ repr_finite v2 ->
  __eq__ v1 (Vec v2) = Ok true.
Proof.
  intros Hx1 Hy1 Hx2 Hy2 Hr.
  destruct (eval_repr repr_finite float_literal v1 Hx1 Hy1) as (w1 & He1 & Hq1).
  destruct (eval_repr repr_finite float_literal v2 Hx2 Hy2) as (w2 & He2 & Hq2).
  rewrite Hr, He2 in He1. injection He1 as <-.
  rewrite eq_vec in *. injection Hq1 as Hq1. injection Hq2 as Hq2.
  apply andb_true_iff in Hq1 as [Hx Hy]. apply andb_true_iff in Hq2 as [Hx' Hy'].
  f_equal. apply andb_true_iff. split.
  - apply eqb_trans with (x w2); [now rewrite eqb_sym | assumption].
  - apply eqb_trans with (y w2); [now rewrite eqb_sym | assumption].
Qed.

(** [Vector2d(3, 4)] and the vector read from the octets of [3.0] and
    built with [4]. *)
Lemma repr_distinguishes_witness :
  __eq__ Sample.v34 (Vec (mk (float_of_bits 0x4008000000000000) (lit 4))) = Ok true.
Proof.
  assert (H3 : reads_back Sample.repr_finite Sample.float_literal (lit 3)).
  { split; [vm_compute; reflexivity |].
    exists (ELit (lit 3)), (lit 3). repeat split; vm_compute; reflexivity. }
  assert (H4 : reads_back Sample.repr_finite Sample.float_literal (lit 4)).
  { split; [vm_compute; reflexivity |].
    exists (ELit (lit 4)), (lit 4). repeat split; vm_compute; reflexivity. }
  apply (repr_distinguishes Sample.repr_finite Sample.float_literal);
    [exact H3 | exact H4 | exact H3 | exact H4 | vm_compute; reflexivity].
Defined.

End EqualMore.
